(** * setup.py of habitat-sim: the CMake build driver

    A shallow embedding of [src/setup.py]: the reconfigure decision
    ([CMakeBuild.run_cmake]), the argument cache of
    [CMakeBuild.build_extension], the compile-command merger
    ([CMakeBuild.create_compile_commands]) and the environment overrides of
    the [__main__] block.

    Text is modelled as [string], one [ascii] per character. The character
    classes of [re] and [str.lower] are given on ASCII only, so the
    statements that rest on what the pattern accepts carry the hypothesis
    that the text is ASCII ([PyStr.is_ascii]). Python objects that flow through
    [args] and the JSON files are values of [pyval]. The file system is an
    ordered list of regular files named by their literal path (the order is
    the directory order that [glob] discovers) together with the paths that
    are symbolic links; directories and the resolution of links are not
    modelled. *)

From Stdlib Require Import ZArith Ascii String List Bool Lia.
From stdpp Require Import base option list strings gmap fin_maps.

Local Open Scope string_scope.
Local Open Scope list_scope.
Set Warnings "-register-all".
#[local] Arguments String.append !_ _ : simpl nomatch.

(** ** Python string primitives *)

Module PyStr.

Definition LF : ascii := "010"%char.
Definition CR : ascii := "013"%char.
Definition DQUOTE : ascii := Ascii.ascii_of_nat 34.
Definition BACKSLASH : ascii := Ascii.ascii_of_nat 92.

(** [s[:n]] *)
Fixpoint slice_to (n : nat) (s : string) : string :=
  match n, s with
  | S n', String c s' => String c (slice_to n' s')
  | _, _ => EmptyString
  end.

(** [s[n:]] *)
Fixpoint slice_from (n : nat) (s : string) : string :=
  match n, s with
  | S n', String _ s' => slice_from n' s'
  | _, _ => s
  end.

(** [s.startswith(p)] *)
Fixpoint startswith (p s : string) : bool :=
  match p, s with
  | EmptyString, _ => true
  | String a p', String b s' => if Ascii.eqb a b then startswith p' s' else false
  | String _ _, EmptyString => false
  end.

(** [c in s] for a single character [c]. *)
Fixpoint contains (c : ascii) (s : string) : bool :=
  match s with
  | EmptyString => false
  | String a s' => if Ascii.eqb a c then true else contains c s'
  end.

(** [s.split(c, 1)] followed by unpacking into two names: the text before
    and after the first [c]; [None] when [c] does not occur, which is where
    the two-name unpacking raises [ValueError]. *)
Fixpoint split_once (c : ascii) (s : string) : option (string * string) :=
  match s with
  | EmptyString => None
  | String a s' =>
      if Ascii.eqb a c then Some (EmptyString, s')
      else match split_once c s' with
           | Some (k, v) => Some (String a k, v)
           | None => None
           end
  end.

(** [s[s.rfind(c) + 1:]]: what follows the last [c], all of [s] when [c]
    does not occur. *)
Fixpoint after_last (c : ascii) (s : string) : string :=
  match s with
  | EmptyString => EmptyString
  | String a s' =>
      if contains c s then after_last c s' else s
  end.

(** [s.lower()] on ASCII letters. *)
Definition lower_char (c : ascii) : ascii :=
  let n := Ascii.nat_of_ascii c in
  if (65 <=? n)%nat && (n <=? 90)%nat then Ascii.ascii_of_nat (n + 32) else c.

Fixpoint lower (s : string) : string :=
  match s with
  | EmptyString => EmptyString
  | String c s' => String (lower_char c) (lower s')
  end.

(** A character below 128, and a text of such characters. On them one
    [ascii] is one character of the Python [str], whatever the encoding of
    the file, and [re] and [str] treat them as this module says. *)
Definition is_ascii_char (c : ascii) : bool := (Ascii.nat_of_ascii c <? 128)%nat.

Fixpoint is_ascii (s : string) : bool :=
  match s with
  | EmptyString => true
  | String c s' => is_ascii_char c && is_ascii s'
  end.

(** The character class [\w] of [re] on ASCII characters; of the other
    characters, which [re] classifies by the Unicode tables, none is taken
    to be a word character. *)
Definition is_word (c : ascii) : bool :=
  let n := Ascii.nat_of_ascii c in
  ((48 <=? n)%nat && (n <=? 57)%nat)
  || ((65 <=? n)%nat && (n <=? 90)%nat)
  || ((97 <=? n)%nat && (n <=? 122)%nat)
  || (n =? 95)%nat.

(** The longest prefix of word characters, and what follows it. *)
Fixpoint span_word (s : string) : string * string :=
  match s with
  | EmptyString => (EmptyString, EmptyString)
  | String c s' =>
      if is_word c then let '(w, r) := span_word s' in (String c w, r)
      else (EmptyString, s)
  end.

Fixpoint all_word (s : string) : bool :=
  match s with
  | EmptyString => true
  | String c s' => is_word c && all_word s'
  end.

(** Text mode with the default [newline=None]: CR LF and a lone CR are
    read as LF. *)
Fixpoint universal_newlines (s : string) : string :=
  match s with
  | EmptyString => EmptyString
  | String c s' =>
      if Ascii.eqb c CR then
        match s' with
        | String d s'' =>
            if Ascii.eqb d LF then String LF (universal_newlines s'')
            else String LF (universal_newlines s')
        | EmptyString => String LF EmptyString
        end
      else String c (universal_newlines s')
  end.

(** [f.readlines()] on translated text: the text is cut after every LF,
    every line keeps its LF, and the last line has one only when the text
    ends with one. [cur] is the part of the current line read so far. *)
Fixpoint readlines_from (cur : string) (s : string) : list string :=
  match s with
  | EmptyString =>
      match cur with EmptyString => [] | _ => [cur] end
  | String c s' =>
      if Ascii.eqb c LF then (cur +:+ String LF EmptyString) :: readlines_from EmptyString s'
      else readlines_from (cur +:+ String c EmptyString) s'
  end.

Definition readlines (contents : string) : list string :=
  readlines_from EmptyString (universal_newlines contents).

(** [s.endswith(c)] for a single character. *)
Fixpoint endswith_char (c : ascii) (s : string) : bool :=
  match s with
  | EmptyString => false
  | String a EmptyString => Ascii.eqb a c
  | String _ s' => endswith_char c s'
  end.

(** [s[:s.rfind(c) + 1]]: the prefix up to and including the last [c]. *)
Fixpoint upto_last (c : ascii) (s : string) : string :=
  match s with
  | EmptyString => EmptyString
  | String a s' => if contains c s then String a (upto_last c s') else EmptyString
  end.

(** [s == c * len(s)] *)
Fixpoint all_char (c : ascii) (s : string) : bool :=
  match s with
  | EmptyString => true
  | String a s' => Ascii.eqb a c && all_char c s'
  end.

(** [s.rstrip(c)] *)
Fixpoint rstrip (c : ascii) (s : string) : string :=
  match s with
  | EmptyString => EmptyString
  | String a s' => if all_char c s then EmptyString else String a (rstrip c s')
  end.

End PyStr.

(** ** [os.path] on POSIX *)

Module osp.

Definition SEP : ascii := "/"%char.

(** [posixpath.join(a, b)] *)
Definition join (a b : string) : string :=
  if PyStr.startswith (String SEP EmptyString) b then b
  else if String.eqb a EmptyString || PyStr.endswith_char SEP a then a +:+ b
  else a +:+ String SEP b.

(** [posixpath.basename(p)] *)
Definition basename (p : string) : string := PyStr.after_last SEP p.

(** [posixpath.dirname(p)] *)
Definition dirname (p : string) : string :=
  let head := PyStr.upto_last SEP p in
  if negb (String.eqb head EmptyString) && negb (PyStr.all_char SEP head)
  then PyStr.rstrip SEP head else head.

End osp.

(** ** The cache-line pattern of [run_cmake]

    [re.compile(r"(?P<K>\w+?)(:\w+?|)=(?P<V>.*?)$")], tried with [match]
    (anchored at the start of the line). Both [\w+?] groups are followed by
    a character that is not a word character, so each can only stop at the
    end of its run of word characters; [.] does not cross an LF and [$]
    holds at the end of the line or just before its final LF. *)

Module CacheParser.
Import PyStr.

(** [(?P<V>.*?)$] *)
Fixpoint value_to_eol (s : string) : option string :=
  match s with
  | EmptyString => Some EmptyString
  | String c s' =>
      if Ascii.eqb c LF then
        match s' with EmptyString => Some EmptyString | String _ _ => None end
      else match value_to_eol s' with
           | Some v => Some (String c v)
           | None => None
           end
  end.

(** [cache_parser.match(l)]: the groups [K] and [V], or [None]. *)
Definition cache_parser_match (l : string) : option (string * string) :=
  let '(k, r) := span_word l in
  match k, r with
  | String _ _, String c r' =>
      if Ascii.eqb c "="%char then
        match value_to_eol r' with Some v => Some (k, v) | None => None end
      else if Ascii.eqb c ":"%char then
        match span_word r' with
        | (String _ _, String e r'') =>
            if Ascii.eqb e "="%char then
              match value_to_eol r'' with Some v => Some (k, v) | None => None end
            else None
        | _ => None
        end
      else None
  | _, _ => None
  end.

(** The language of the pattern, read off the regular expression: a line
    [K T = V nl] with [K] a non-empty word, [T] empty or a colon and a
    non-empty word, [V] free of LF and [nl] empty or one LF. *)
Definition cache_line (l K V : string) : Prop :=
  exists T nl,
    l = K +:+ T +:+ String "="%char (V +:+ nl)
    /\ K <> EmptyString /\ all_word K = true
    /\ (T = EmptyString \/
        exists W, T = String ":"%char W /\ W <> EmptyString /\ all_word W = true)
    /\ contains LF V = false
    /\ (nl = EmptyString \/ nl = String LF EmptyString).

End CacheParser.

(** ** Python values, exceptions and the world the script runs in *)

(** The objects that [argparse] and [json.load] produce ([float] apart). In a
    [PDict] the pairs are in insertion order, as in a Python [dict]. *)
Inductive pyval : Type :=
| PNone
| PBool (b : bool)
| PInt (z : Z)
| PStr (s : string)
| PList (l : list pyval)
| PDict (d : list (string * pyval)).

(** Truth value testing, as [if x:] does it. *)
Definition truthy (v : pyval) : bool :=
  match v with
  | PNone => false
  | PBool b => b
  | PInt z => negb (Z.eqb z 0)
  | PStr s => negb (String.eqb s EmptyString)
  | PList l => match l with [] => false | _ :: _ => true end
  | PDict d => match d with [] => false | _ :: _ => true end
  end.

Inductive exn : Type :=
| ValueError
| KeyError (key : string)
| AttributeError
| TypeError
| JSONDecodeError
| FileNotFoundError (path : string)
| FileExistsError (path : string)
| OSError
| CalledProcessError (returncode : Z)
| RuntimeError.

(** What the script itself does to the outside, in order. *)
Inductive event : Type :=
| EWrite (path contents : string)
| ESymlink (src dst : string)
| ESpawn (argv : list string).

(** The file system as the script sees it: regular files by path, in
    directory order, and the paths that are symbolic links. *)
Record FileSystem : Type := mkFS {
  files : list (string * string);
  links : list string
}.

Record World : Type := mkWorld {
  environ : gmap string string;     (* os.environ *)
  args : gmap string pyval;         (* the module-level Namespace, as vars(args) *)
  fs : FileSystem;
  log : list event
}.

Definition set_args (a : gmap string pyval) (w : World) : World :=
  mkWorld (environ w) a (fs w) (log w).
Definition set_fs (f : FileSystem) (w : World) : World :=
  mkWorld (environ w) (args w) f (log w).
Definition emit (e : event) (w : World) : World :=
  mkWorld (environ w) (args w) (fs w) (log w ++ [e]).

(** Association lists with Python's [dict] behaviour: the first pair with
    the key is the entry; assignment to a present key keeps its place,
    assignment to a new key appends. *)
Module Dict.

Fixpoint get {A} (k : string) (d : list (string * A)) : option A :=
  match d with
  | [] => None
  | (k', v) :: d' => if String.eqb k' k then Some v else get k d'
  end.

Fixpoint set {A} (k : string) (v : A) (d : list (string * A)) : list (string * A) :=
  match d with
  | [] => [(k, v)]
  | (k', v') :: d' =>
      if String.eqb k' k then (k', v) :: d' else (k', v') :: set k v d'
  end.

Definition mem {A} (k : string) (d : list (string * A)) : bool :=
  match get k d with Some _ => true | None => false end.

End Dict.

(** ** The monad of the script: state and exceptions *)

Definition M (A : Type) : Type := World -> (exn + A) * World.

Definition ret {A} (a : A) : M A := fun w => (inr a, w).
Definition raise {A} (e : exn) : M A := fun w => (inl e, w).
Definition bind {A B} (c : M A) (k : A -> M B) : M B :=
  fun w => match c w with
           | (inr a, w') => k a w'
           | (inl e, w') => (inl e, w')
           end.
Definition gets {A} (f : World -> A) : M A := fun w => (inr (f w), w).
Definition modify (f : World -> World) : M unit := fun w => (inr tt, f w).
Definition lift {A} (r : exn + A) : M A := fun w => (r, w).

Notation "x <- c ;; k" := (bind c (fun x => k))
  (at level 100, c at next level, right associativity).
Notation "c ;;; k" := (bind c (fun _ => k))
  (at level 100, right associativity).

(** [getattr(args, name)] *)
Definition getattr (name : string) : M pyval :=
  fun w => match args w !! name with
           | Some v => (inr v, w)
           | None => (inl AttributeError, w)
           end.

(** [setattr(args, name, v)] on the [argparse.Namespace]. Three names are
    data descriptors of the class and do not go to the instance dictionary:
    [__dict__] installs [v] as the whole dictionary when [v] is a [dict] and
    raises [TypeError] otherwise, [__class__] raises [TypeError] for every
    value that is not a class (no value here is one), and [__weakref__] is
    not writable. Every other name is an entry of the dictionary. *)
Definition setattr (name : string) (v : pyval) : M unit :=
  if String.eqb name "__dict__" then
    match v with
    | PDict d => modify (fun w => set_args (list_to_map d) w)
    | _ => raise TypeError
    end
  else if String.eqb name "__class__" then raise TypeError
  else if String.eqb name "__weakref__" then raise AttributeError
  else modify (fun w => set_args (<[name := v]> (args w)) w).

(** [os.path.exists(p)] for a regular file. *)
Definition path_exists (p : string) : M bool :=
  gets (fun w => Dict.mem p (files (fs w))).

(** [open(p, "r").read()]: the file is read in text mode, so CR LF and a
    lone CR come out as LF. *)
Definition read_text (p : string) : M string :=
  fun w => match Dict.get p (files (fs w)) with
           | Some c => (inr (PyStr.universal_newlines c), w)
           | None => (inl (FileNotFoundError p), w)
           end.

(** [open(p, "r").readlines()] *)
Definition open_readlines (p : string) : M (list string) :=
  fun w => match Dict.get p (files (fs w)) with
           | Some c => (inr (PyStr.readlines c), w)
           | None => (inl (FileNotFoundError p), w)
           end.

(** [open(p, "w").write(c)] *)
Definition write_text (p c : string) : M unit :=
  modify (fun w =>
    emit (EWrite p c)
         (set_fs (mkFS (Dict.set p c (files (fs w))) (links (fs w))) w)).

(** [os.path.islink(p)] *)
Definition islink (p : string) : M bool :=
  gets (fun w => bool_decide (p ∈ links (fs w))).

(** [os.symlink(src, dst)] *)
Definition symlink (src dst : string) : M unit :=
  fun w =>
    if Dict.mem dst (files (fs w)) || bool_decide (dst ∈ links (fs w))
    then (inl (FileExistsError dst), w)
    else (inr tt,
          emit (ESymlink src dst)
               (set_fs (mkFS (files (fs w)) (dst :: links (fs w))) w)).

(** ** [CMakeBuild.run_cmake] *)

(** What [self] and [ext] carry into the build. *)
Record CMakeBuild : Type := mkCMakeBuild {
  build_temp : string;                    (* self.build_temp *)
  debug : bool;                           (* self.debug *)
  get_ext_fullpath : string -> string;    (* self.get_ext_fullpath *)
  version : string                        (* self.distribution.get_version() *)
}.

Record CMakeExtension : Type := mkCMakeExtension {
  name : string;
  sourcedir : string
}.

Module Reconfigure.
Import PyStr CacheParser.

(** The inner loop [for l in cache_contents]: [true] when it reaches
    [return True]. *)
Fixpoint for_lines (k v : string) (cache_contents : list string) : bool :=
  match cache_contents with
  | [] => false
  | l :: rest =>
      match cache_parser_match l with
      | None => for_lines k v rest
      | Some (K, V) =>
          if String.eqb K k && negb (String.eqb V v) then true
          else for_lines k v rest
      end
  end.

(** The outer loop [for arg in cmake_args] and the [return False] after it. *)
Fixpoint for_args (cache_contents : list string) (cmake_args : list string)
  : exn + bool :=
  match cmake_args with
  | [] => inr false
  | arg :: rest =>
      if String.eqb (slice_to 2 arg) "-G" then for_args cache_contents rest
      else
        match split_once "="%char arg with
        | None => inl ValueError
        | Some (k, v) =>
            let k := slice_from 2 k in
            if for_lines k v cache_contents then inr true
            else for_args cache_contents rest
        end
  end.

Definition run_cmake (self : CMakeBuild) (cmake_args : list string) : M bool :=
  force_cmake <- getattr "force_cmake" ;;
  if truthy force_cmake then ret true
  else
    let cmake_cache := osp.join (build_temp self) "CMakeCache.txt" in
    found <- path_exists cmake_cache ;;
    if found then
      cache_contents <- open_readlines cmake_cache ;;
      lift (for_args cache_contents cmake_args)
    else ret true.

End Reconfigure.

(** ** What the script calls but does not define

    [json], [shlex], [subprocess], [os.path.abspath], [sys.executable] and
    standard input are taken as an interface: every statement below holds
    for all implementations of it. *)

Inductive completed : Type :=
| Exited (returncode : Z) (after : FileSystem)   (* the child ran *)
| NotStarted.                                    (* the program was not found *)

Class Externals : Type := {
  (** [json.loads]; [None] is [JSONDecodeError]. *)
  json_loads : string -> option pyval;
  (** [json.dumps(obj, indent=indent, sort_keys=sort_keys)] *)
  json_dumps : nat -> bool -> pyval -> string;
  (** [shlex.split] of a string; [None] is its [ValueError]. *)
  shlex_split : string -> option (list string);
  (** Running [argv] with the given environment on a file system. *)
  subprocess : list string -> gmap string string -> FileSystem -> completed;
  abspath : string -> string;
  sys_executable : string;
  stdin : string
}.

Definition ARG_CACHE_BLACKLIST : gset string := {[ "force_cmake" ]}.

(** [for entry in v]: what iterating a value yields. *)
Definition py_iter (v : pyval) : exn + list pyval :=
  match v with
  | PList l => inr l
  | PDict d => inr (map (fun kv => PStr (fst kv)) d)
  | PStr s => inr (map (fun c => PStr (String c EmptyString)) (list_ascii_of_string s))
  | PNone | PBool _ | PInt _ => inl TypeError
  end.

(** [v.items()] *)
Definition py_items (v : pyval) : exn + list (string * pyval) :=
  match v with
  | PDict d => inr d
  | _ => inl AttributeError
  end.

(** [glob.glob("build/*/compile_commands.json")]: the star matches one
    non-empty path component that does not start with a dot. *)
Definition glob_match (p : string) : bool :=
  if PyStr.startswith "build/" p then
    match PyStr.split_once "/"%char (PyStr.slice_from 6 p) with
    | Some (String c d, rest) =>
        negb (Ascii.eqb c "."%char) && String.eqb rest "compile_commands.json"
    | _ => false
    end
  else false.

Definition glob_compile_commands : M (list string) :=
  gets (fun w => List.filter glob_match (map fst (files (fs w)))).

Section Script.
Context `{Externals}.

(** [subprocess.check_call(argv, env=env)]; [check_output] differs only in
    returning the output, which the script never looks at. *)
Definition check_call (argv : list string) (env : gmap string string) : M unit :=
  fun w =>
    let w := emit (ESpawn argv) w in
    match subprocess argv env (fs w) with
    | Exited 0 after => (inr tt, set_fs after w)
    | Exited rc after => (inl (CalledProcessError rc), set_fs after w)
    | NotStarted => (inl OSError, w)
    end.

(** [try: c; return True / except: return False] *)
Definition succeeds (c : M unit) : M bool :=
  fun w => match c w with
           | (inr _, w') => (inr true, w')
           | (inl _, w') => (inr false, w')
           end.

Definition in_git : M bool :=
  env <- gets environ ;;
  succeeds (check_call ["git"; "rev-parse"; "--is-inside-work-tree"] env).

Definition has_ninja : M bool :=
  env <- gets environ ;;
  succeeds (check_call ["ninja"; "--version"] env).

Definition is_pip : M bool :=
  gets (fun w =>
    PyStr.startswith "pip" (osp.basename (default "/pip/no" (environ w !! "_")))).

(** [json.load(open(filename))] *)
Definition load (filename : string) : M pyval :=
  text <- read_text filename ;;
  match json_loads text with
  | Some v => ret v
  | None => raise JSONDecodeError
  end.

(** *** [create_compile_commands] *)

(** [[entry for f in commands for entry in load(f)]] *)
Fixpoint load_all (commands : list string) : M (list pyval) :=
  match commands with
  | [] => ret []
  | f :: rest =>
      v <- load f ;;
      entries <- lift (py_iter v) ;;
      more <- load_all rest ;;
      ret (entries ++ more)
  end.

(** One round of [for command in all_commands]: the entry after the body
    ran, or the exception of [command["command"]] and [.startswith]. *)
Definition fix_command (command : pyval) : exn + pyval :=
  match command with
  | PDict d =>
      match Dict.get "command" d with
      | None => inl (KeyError "command")
      | Some (PStr c) =>
          if PyStr.startswith "gcc " c
          then inr (PDict (Dict.set "command" (PStr ("g++ " +:+ PyStr.slice_from 4 c)) d))
          else inr command
      | Some _ => inl AttributeError
      end
  | _ => inl TypeError
  end.

Fixpoint fix_commands (all_commands : list pyval) : exn + list pyval :=
  match all_commands with
  | [] => inr []
  | command :: rest =>
      match fix_command command with
      | inl e => inl e
      | inr command' =>
          match fix_commands rest with
          | inl e => inl e
          | inr rest' => inr (command' :: rest')
          end
      end
  end.

Definition create_compile_commands : M unit :=
  commands <- glob_compile_commands ;;
  all_commands <- load_all commands ;;
  all_commands <- lift (fix_commands all_commands) ;;
  let new_contents := json_dumps 2 false (PList all_commands) in
  found <- path_exists "compile_commands.json" ;;
  contents <- (if found then read_text "compile_commands.json" else ret EmptyString) ;;
  if negb (String.eqb contents new_contents)
  then write_text "compile_commands.json" new_contents
  else ret tt.

(** *** [build_extension] *)

(** [for k, v in cached_args.items(): if k not in ARG_CACHE_BLACKLIST:
    setattr(args, k, v)] *)
Fixpoint restore_args (items : list (string * pyval)) : M unit :=
  match items with
  | [] => ret tt
  | (k, v) :: rest =>
      (if bool_decide (k ∈ ARG_CACHE_BLACKLIST) then ret tt else setattr k v) ;;;
      restore_args rest
  end.

(** [not is_pip() and not args.no_cached_args and osp.exists(f)], with the
    short-circuit evaluation of [and]. *)
Definition cache_eligible (args_cache_file : string) : M bool :=
  pip <- is_pip ;;
  if pip then ret false
  else
    no_cached_args <- getattr "no_cached_args" ;;
    if truthy no_cached_args then ret false
    else path_exists args_cache_file.

(** Lines 137 to 143: the cached arguments are read and laid over [args]. *)
Definition load_cached_args (args_cache_file : string) : M unit :=
  eligible <- cache_eligible args_cache_file ;;
  if eligible then
    cached_args <- load args_cache_file ;;
    items <- lift (py_items cached_args) ;;
    restore_args items
  else ret tt.

(** [shlex.split(v)] of whatever [args.cmake_args] holds: [None] makes
    [shlex] read standard input, any other non-string has no [read]. *)
Definition shlex_split_val (v : pyval) : M (list string) :=
  match v with
  | PStr s =>
      match shlex_split s with Some l => ret l | None => raise ValueError end
  | PNone =>
      match shlex_split stdin with Some l => ret l | None => raise ValueError end
  | _ => raise AttributeError
  end.

Definition shlex_split_str (s : string) : M (list string) :=
  shlex_split_val (PStr s).

Definition on_off (b : bool) : string := if b then "ON" else "OFF".

(** [vars(args)], handed to [json.dump]. *)
Definition vars_args (a : gmap string pyval) : pyval := PDict (map_to_list a).

Definition build_extension (self : CMakeBuild) (ext : CMakeExtension) : M unit :=
  let args_cache_file := osp.join (build_temp self) "setuppy_args.json" in
  load_cached_args args_cache_file ;;;
  let extdir := abspath (osp.dirname (get_ext_fullpath self (name ext))) in
  git <- in_git ;;
  update <- (if git
             then v <- getattr "no_update_submodules" ;; ret (negb (truthy v))
             else ret false) ;;
  (if update
   then env <- gets environ ;;
        check_call ["git"; "submodule"; "update"; "--init"; "--recursive"] env
   else ret tt) ;;;
  pip <- is_pip ;;
  let cmake_args :=
    [ "-DCMAKE_LIBRARY_OUTPUT_DIRECTORY=" +:+ extdir;
      "-DPYTHON_EXECUTABLE=" +:+ sys_executable;
      "-DCMAKE_EXPORT_COMPILE_COMMANDS=" +:+ (if pip then "OFF" else "ON") ] in
  extra <- getattr "cmake_args" ;;
  extra <- shlex_split_val extra ;;
  let cmake_args := cmake_args ++ extra in
  let cfg := if debug self then "Debug" else "RelWithDebInfo" in
  let cmake_args := cmake_args ++ ["-DCMAKE_BUILD_TYPE=" +:+ cfg] in
  ninja <- has_ninja ;;
  let cmake_args := if ninja then cmake_args ++ ["-GNinja"] else cmake_args in
  headless <- getattr "headless" ;;
  let cmake_args :=
    cmake_args ++ ["-DBUILD_GUI_VIEWERS=" +:+ on_off (negb (truthy headless))] in
  build_tests <- getattr "build_tests" ;;
  let cmake_args :=
    cmake_args ++ ["-DBUILD_TESTS=" +:+ on_off (truthy build_tests)] in
  environ0 <- gets environ ;;
  let env :=
    <["CXXFLAGS" :=
        default EmptyString (environ0 !! "CXXFLAGS")
        +:+ " -DVERSION_INFO=" +:+ String PyStr.BACKSLASH (String PyStr.DQUOTE
              (version self +:+ String PyStr.BACKSLASH (String PyStr.DQUOTE EmptyString)))
     ]> environ0 in
  reconfigure <- Reconfigure.run_cmake self cmake_args ;;
  (if reconfigure
   then argv <- shlex_split_str
                  ("cmake -H" +:+ sourcedir ext +:+ " -B" +:+ build_temp self) ;;
        check_call (argv ++ cmake_args) env
   else ret tt) ;;;
  argv <- shlex_split_str ("cmake --build " +:+ build_temp self) ;;
  check_call argv environ0 ;;;
  (* The things following this don't work with pip *)
  pip <- is_pip ;;
  if pip then ret tt
  else
    headless <- getattr "headless" ;;
    (if negb (truthy headless)
     then let link_dst := osp.join (osp.dirname (build_temp self)) "viewer" in
          linked <- islink link_dst ;;
          if negb linked
          then symlink (abspath (osp.join (build_temp self) "utils/viewer/viewer")) link_dst
          else ret tt
     else ret tt) ;;;
    linked <- islink (osp.join (osp.dirname (build_temp self)) "utils") ;;
    (if negb linked
     then symlink (abspath (osp.join (build_temp self) "utils"))
                  (osp.join (osp.dirname (build_temp self)) "utils")
     else ret tt) ;;;
    create_compile_commands ;;;
    a <- gets args ;;
    write_text args_cache_file (json_dumps 4 true (vars_args a)).

(** *** [CMakeBuild.run] *)

Fixpoint for_extensions (self : CMakeBuild) (extensions : list CMakeExtension) : M unit :=
  match extensions with
  | [] => ret tt
  | ext :: rest => build_extension self ext ;;; for_extensions self rest
  end.

Definition run (self : CMakeBuild) (extensions : list CMakeExtension) : M unit :=
  env <- gets environ ;;
  (fun w => match check_call ["cmake"; "--version"] env w with
            | (inl OSError, w') => (inl RuntimeError, w')
            | r => r
            end) ;;;
  for_extensions self extensions.

End Script.

(** ** The environment overrides of the [__main__] block (lines 274 to 278) *)

Definition environment_overrides : M unit :=
  env <- gets environ ;;
  (if String.eqb (PyStr.lower (default EmptyString (env !! "HEADLESS"))) "true"
   then setattr "headless" (PBool true)
   else ret tt) ;;;
  match env !! "CMAKE_ARGS" with
  | Some v => setattr "cmake_args" (PStr v)
  | None => ret tt
  end.

(** ** The split of the command line (lines 78 to 91) *)

(** [for i, arg in enumerate(sys.argv)]: the arguments before the first
    [--] are [parseable_args]; [unparseable_args] is [sys.argv[i:]], the
    [--] included, and stays empty when there is none. *)
Fixpoint split_argv (argv : list string) : list string * list string :=
  match argv with
  | [] => ([], [])
  | arg :: rest =>
      if String.eqb arg "--" then ([], argv)
      else
        let '(parseable_args, unparseable_args) := split_argv rest in
        (arg :: parseable_args, unparseable_args)
  end.

(** [args, filtered_args = parser.parse_known_args(args=parseable_args)] and
    [sys.argv = filtered_args + unparseable_args], for any parser: the
    parsed options and the new [sys.argv]. *)
Definition filter_argv {A} (parse_known_args : list string -> A * list string)
           (argv : list string) : A * list string :=
  let '(parseable_args, unparseable_args) := split_argv argv in
  let '(args, filtered_args) := parse_known_args parseable_args in
  (args, filtered_args ++ unparseable_args).

(** ** Vocabulary of the statements *)

Module Vocabulary.
Import PyStr.

(** The command of an entry after the loop body ran on it. *)
Definition command_after (c : string) : string :=
  if startswith "gcc " c then "g++ " +:+ slice_from 4 c else c.

(** A compile-command record as CMake writes it. *)
Definition entry (command : string) : list (string * pyval) :=
  [("directory", PStr "/src/build"); ("command", PStr command); ("file", PStr "a.cpp")].

(** [arg] is compared as the pair ([k], [v]): it is not a generator flag,
    [v] is what follows its first equals sign and [k] what precedes it, less
    the two characters of the -D. *)
Definition requested (arg k v : string) : Prop :=
  slice_to 2 arg <> "-G"
  /\ exists k0, arg = k0 +:+ String "="%char v
                /\ contains "="%char k0 = false
                /\ k = slice_from 2 k0.

(** Some line of the state file parses to the key of [arg] with another
    value. *)
Definition mismatch (cache_contents : list string) (arg : string) : Prop :=
  exists k v l V,
    requested arg k v
    /\ In l cache_contents
    /\ CacheParser.cache_line l k V
    /\ V <> v.

(** A generator flag, or an argument with an equals sign. *)
Definition comparable (arg : string) : Prop :=
  slice_to 2 arg = "-G" \/ contains "="%char arg = true.

(** A text of ASCII characters. *)
Definition ascii_text (s : string) : Prop := is_ascii s = true.

(** *** Sample worlds *)

Definition self0 : CMakeBuild :=
  mkCMakeBuild "build/temp" false (fun n => "build/lib/" +:+ n) "0.1".

Definition ext0 : CMakeExtension :=
  mkCMakeExtension "habitat_sim._ext.habitat_sim_bindings" "src".

(** What [argparse] leaves in [args] for the given toggles. *)
Definition parsed_args (headless force_cmake no_cached_args : bool) (cmake_args : string)
  : gmap string pyval :=
  <["headless" := PBool headless]>
  (<["force_cmake" := PBool force_cmake]>
  (<["build_tests" := PBool false]>
  (<["cmake_args" := PStr cmake_args]>
  (<["no_update_submodules" := PBool false]>
  (<["no_cached_args" := PBool no_cached_args]> ∅))))).

(** A world whose build directory holds the given generator state file. *)
Definition world_with_cache (force_cmake : bool) (cache : string) : World :=
  mkWorld ∅ (parsed_args false force_cmake false EmptyString)
          (mkFS [("build/temp/CMakeCache.txt", cache)] []) [].

Definition cache_B3 : string := "A:STRING=1" +:+ String LF "B:STRING=3".
Definition cache_B2 : string := "A:STRING=1" +:+ String LF "B:STRING=2".

(** *** A sample implementation of the interface

    Enough of [json], [shlex] and [subprocess] to run the script on the
    sample worlds: a printer for values, a reader that knows the sample
    texts, splitting at spaces, and programs that exit with status 0 and
    leave the files alone ([ninja] is not installed). *)

Definition quoted (s : string) : string :=
  String DQUOTE (s +:+ String DQUOTE EmptyString).

Fixpoint sample_dumps (v : pyval) : string :=
  match v with
  | PNone => "null"
  | PBool true => "true"
  | PBool false => "false"
  | PInt z => if Z.eqb z 0 then "0" else "1"
  | PStr s => quoted s
  | PList l =>
      "[" +:+
      (fix items (l : list pyval) : string :=
         match l with
         | [] => EmptyString
         | [x] => sample_dumps x
         | x :: r => sample_dumps x +:+ ", " +:+ items r
         end) l +:+ "]"
  | PDict d =>
      "{" +:+
      (fix items (d : list (string * pyval)) : string :=
         match d with
         | [] => EmptyString
         | [(k, x)] => quoted k +:+ ": " +:+ sample_dumps x
         | (k, x) :: r => quoted k +:+ ": " +:+ sample_dumps x +:+ ", " +:+ items r
         end) d +:+ "}"
  end.

(** A saved configuration that asks for a forced, headless build. *)
Definition cached_forced : pyval :=
  PDict [("force_cmake", PBool true); ("headless", PBool true)].

(** The merged records of one module. *)
Definition module_commands : pyval :=
  PList [PDict (entry "gcc -c a.cpp"); PDict (entry "clang -c a.c")].

Definition sample_loads (s : string) : option pyval :=
  if String.eqb s (sample_dumps cached_forced) then Some cached_forced
  else if String.eqb s (sample_dumps module_commands) then Some module_commands
  else if String.eqb s "[]" then Some (PList [])
  else None.

Fixpoint split_spaces (cur : string) (s : string) : list string :=
  match s with
  | EmptyString => match cur with EmptyString => [] | _ => [cur] end
  | String c s' =>
      if Ascii.eqb c " "%char
      then match cur with
           | EmptyString => split_spaces EmptyString s'
           | _ => cur :: split_spaces EmptyString s'
           end
      else split_spaces (cur +:+ String c EmptyString) s'
  end.

Definition sample_subprocess (argv : list string) (env : gmap string string)
           (f : FileSystem) : completed :=
  match argv with
  | "ninja" :: _ => NotStarted
  | _ => Exited 0 f
  end.

Definition sample : Externals := {|
  json_loads := sample_loads;
  json_dumps := fun _ _ => sample_dumps;
  shlex_split := fun s => Some (split_spaces EmptyString s);
  subprocess := sample_subprocess;
  abspath := fun p => if startswith "/" p then p else "/src/" +:+ p;
  sys_executable := "/usr/bin/python3";
  stdin := EmptyString
|}.

(** A checkout that was configured before: the generator state file is
    there, one module has its compile commands, and the caller asked not to
    use the cached arguments. *)
Definition world_no_cached_args : World :=
  mkWorld ∅ (parsed_args false false true EmptyString)
          (mkFS [("build/temp/CMakeCache.txt", cache_B2);
                 ("build/temp/compile_commands.json", sample_dumps module_commands)] [])
          [].

(** *** Observations on worlds *)

Definition is_write (e : event) : bool :=
  match e with EWrite _ _ => true | _ => false end.

(** The files the script wrote, in order. *)
Definition writes (l : list event) : list event := List.filter is_write l.

(** The script wrote [path] at some point. *)
Definition wrote (path : string) (l : list event) : Prop :=
  exists contents, In (EWrite path contents) l.

(** [c] leaves the observation [obs] of the world as it found it, whether it
    returns or raises. *)
Definition keeps {X A} (obs : World -> X) (c : M A) : Prop :=
  forall w, obs (snd (c w)) = obs w.

(** What [is_pip()] answers in an environment. *)
Definition pip_driven (env : gmap string string) : bool :=
  startswith "pip" (osp.basename (default "/pip/no" (env !! "_"))).

(** The three names that [setattr] does not store in the dictionary. *)
Definition is_descriptor (name : string) : bool :=
  String.eqb name "__dict__" || String.eqb name "__class__"
  || String.eqb name "__weakref__".

(** An item of a cache that [setattr] refuses: [__class__], [__weakref__],
    and [__dict__] with a value that is not an object. *)
Definition unsettable (kv : string * pyval) : bool :=
  if String.eqb (fst kv) "__dict__"
  then match snd kv with PDict _ => false | _ => true end
  else String.eqb (fst kv) "__class__" || String.eqb (fst kv) "__weakref__".




(** An observation that does not depend on the files and links, nor on the
    processes and links the script logs. *)
Class Frame {X} (obs : World -> X) : Prop := {
  frame_fs : forall f w, obs (set_fs f w) = obs w;
  frame_spawn : forall argv w, obs (emit (ESpawn argv) w) = obs w;
  frame_symlink : forall src dst w, obs (emit (ESymlink src dst) w) = obs w
}.

(** ... nor on [args]. *)
Class FrameArgs {X} (obs : World -> X) : Prop :=
  frame_args : forall a w, obs (set_args a w) = obs w.

(** ... nor on the writes the script logs. *)
Class FrameWrite {X} (obs : World -> X) : Prop :=
  frame_write : forall p c w, obs (emit (EWrite p c) w) = obs w.

(** A world whose argument cache holds [cached_forced] while the caller
    asked for neither a forced nor a headless build. *)
Definition world_cached_forced : World :=
  mkWorld ∅ (parsed_args false false false EmptyString)
          (mkFS [("build/temp/setuppy_args.json", sample_dumps cached_forced)] [])
          [].


(** The caller passed --headless and the environment has HEADLESS=false. *)
Definition world_headless_flag (flag : bool) : World :=
  mkWorld {[ "HEADLESS" := "false" ]} (parsed_args flag false false EmptyString)
          (mkFS [] []) [].

(** The caller passed --cmake-args=-DA=1 and the environment has
    HEADLESS=True and CMAKE_ARGS=-DB=2. *)
Definition world_env_set : World :=
  mkWorld (<["HEADLESS" := "True"]> {[ "CMAKE_ARGS" := "-DB=2" ]})
          (parsed_args false false false "-DA=1")
          (mkFS [] []) [].

(** The world after [open(p, "w").write(c)]. *)
Definition written (p c : string) (w : World) : World :=
  emit (EWrite p c)
       (set_fs (mkFS (Dict.set p c (files (fs w))) (links (fs w))) w).

(** The first half of [create_compile_commands]: the serialized merge of the
    discovered files, [new_contents]. *)
Definition merged_commands `{Externals} : M string :=
  commands <- glob_compile_commands ;;
  all_commands <- load_all commands ;;
  all_commands <- lift (fix_commands all_commands) ;;
  ret (json_dumps 2 false (PList all_commands)).

(** The text of the compile-command database as the script reads it (in
    text mode), empty when there is none: [contents] of the source. *)
Definition database (w : World) : string :=
  match Dict.get "compile_commands.json" (files (fs w)) with
  | Some c => universal_newlines c
  | None => EmptyString
  end.

(** [Q] holds of the outcome of [c] in [w]. *)
Definition wp {A} (c : M A) (Q : exn + A -> World -> Prop) (w : World) : Prop :=
  Q (fst (c w)) (snd (c w)).

(** What the script can see of the invocation and of its own writes. *)
Definition invocation (w : World) : gmap string string * list event :=
  (environ w, writes (log w)).

(** The same checkout, with the build started by pip. *)
Definition world_pip : World :=
  mkWorld {[ "_" := "/usr/bin/pip3" ]} (parsed_args false false false EmptyString)
          (fs world_no_cached_args) [].

(** *** Further vocabulary for the reconfigure decision *)

(** [arg[0:2] == "-G"] *)
Definition is_generator_flag (arg : string) : bool :=
  String.eqb (slice_to 2 arg) "-G".

(** The pairs of the groups K and V of the lines that match, in order. *)
Fixpoint parsed_pairs (cache_contents : list string) : list (string * string) :=
  match cache_contents with
  | [] => []
  | l :: rest =>
      match CacheParser.cache_parser_match l with
      | Some kv => kv :: parsed_pairs rest
      | None => parsed_pairs rest
      end
  end.

(** A world that was never configured: no generator state file. *)
Definition world_unconfigured : World :=
  mkWorld ∅ (parsed_args false false false EmptyString) (mkFS [] []) [].

(** *** Further vocabulary for the argument cache *)

Definition is_write_to (path : string) (e : event) : bool :=
  match e with EWrite p _ => String.eqb p path | _ => false end.

(** The writes of the script to [path], in order. *)
Definition writes_to (path : string) (l : list event) : list event :=
  List.filter (is_write_to path) l.

(** The arguments of an earlier run that asked for a headless build. *)
Definition saved_args : gmap string pyval := parsed_args true false false "-DA=1".

(** The sample interface with a reader that also knows the text of
    [saved_args]. *)
Definition sample_with_saved : Externals := {|
  json_loads := fun s =>
    if String.eqb s (sample_dumps (PDict (map_to_list saved_args)))
    then Some (PDict (map_to_list saved_args)) else sample_loads s;
  json_dumps := fun _ _ => sample_dumps;
  shlex_split := fun s => Some (split_spaces EmptyString s);
  subprocess := sample_subprocess;
  abspath := fun p => if startswith "/" p then p else "/src/" +:+ p;
  sys_executable := "/usr/bin/python3";
  stdin := EmptyString
|}.

(** A later run that forces a configure step, finds the cache that the
    earlier run saved, and has CMAKE_ARGS in its environment. *)
Definition world_after_save : World :=
  mkWorld {[ "CMAKE_ARGS" := "-DB=2" ]} (parsed_args false true false EmptyString)
          (mkFS [("build/temp/setuppy_args.json",
                  sample_dumps (PDict (map_to_list saved_args)))] [])
          [].

(** [sample] with a build step that fails with status 2. *)
Definition sample_build_fails : Externals := {|
  json_loads := sample_loads;
  json_dumps := fun _ _ => sample_dumps;
  shlex_split := fun s => Some (split_spaces EmptyString s);
  subprocess := fun argv env f =>
    match argv with
    | ["cmake"; "--build"; _] => Exited 2 f
    | _ => sample_subprocess argv env f
    end;
  abspath := fun p => if startswith "/" p then p else "/src/" +:+ p;
  sys_executable := "/usr/bin/python3";
  stdin := EmptyString
|}.

(** *** Further vocabulary for the merger *)

(** An entry the loop of [create_compile_commands] can handle: an object
    whose command is a string. *)
Definition has_command (entry : pyval) : Prop :=
  exists d c, entry = PDict d /\ Dict.get "command" d = Some (PStr c).

(** A build tree with the compile commands of two modules, and a database
    written by an earlier tool. *)
Definition world_two_modules : World :=
  mkWorld ∅ (parsed_args false false false EmptyString)
          (mkFS [("build/a/compile_commands.json", sample_dumps module_commands);
                 ("compile_commands.json", "[]");
                 ("build/b/compile_commands.json", "[]");
                 ("build/c/compile_commands.json", "{")] ["build/utils"])
          [].

(** *** Further sample worlds *)

(** A run started through a virtual environment whose directory is called
    pip, with the interpreter itself. *)
Definition world_python_under_pip_dir : World :=
  mkWorld {[ "_" := "/opt/pip/bin/python3" ]} (parsed_args false false false EmptyString)
          (mkFS [] []) [].

(** [sample] on a machine without CMake. *)
Definition sample_no_cmake : Externals := {|
  json_loads := sample_loads;
  json_dumps := fun _ _ => sample_dumps;
  shlex_split := fun s => Some (split_spaces EmptyString s);
  subprocess := fun argv env f =>
    match argv with
    | "cmake" :: _ => NotStarted
    | _ => sample_subprocess argv env f
    end;
  abspath := fun p => if startswith "/" p then p else "/src/" +:+ p;
  sys_executable := "/usr/bin/python3";
  stdin := EmptyString
|}.

(** A cache file that carries a dictionary under the name [__dict__]. *)
Definition cached_poisoned : pyval :=
  PDict [("__dict__", PDict [("force_cmake", PBool true)])].

(** A cache file with an item that cannot be set, after one that can. *)
Definition cached_unsettable : pyval :=
  PDict [("headless", PBool true); ("__class__", PInt 1)].

(** The sample interface with a reader that also knows these two texts. *)
Definition sample_poisoned : Externals := {|
  json_loads := fun s =>
    if String.eqb s (sample_dumps cached_poisoned) then Some cached_poisoned
    else if String.eqb s (sample_dumps cached_unsettable) then Some cached_unsettable
    else sample_loads s;
  json_dumps := fun _ _ => sample_dumps;
  shlex_split := fun s => Some (split_spaces EmptyString s);
  subprocess := sample_subprocess;
  abspath := fun p => if startswith "/" p then p else "/src/" +:+ p;
  sys_executable := "/usr/bin/python3";
  stdin := EmptyString
|}.


Definition world_cache_unsettable : World :=
  mkWorld ∅ (parsed_args false false false EmptyString)
          (mkFS [("build/temp/setuppy_args.json", sample_dumps cached_unsettable)] [])
          [].

(** The sample interface with a printer that puts the brackets of an empty
    list on two lines. *)
Definition sample_two_lines : Externals := {|
  json_loads := sample_loads;
  json_dumps := fun _ _ v =>
    match v with
    | PList [] => String "["%char (String LF "]")
    | _ => sample_dumps v
    end;
  shlex_split := fun s => Some (split_spaces EmptyString s);
  subprocess := sample_subprocess;
  abspath := fun p => if startswith "/" p then p else "/src/" +:+ p;
  sys_executable := "/usr/bin/python3";
  stdin := EmptyString
|}.

(** A checkout without modules whose database is the merge of no file, with
    CR LF for its line ending. *)
Definition world_crlf_database : World :=
  mkWorld ∅ (parsed_args false false false EmptyString)
          (mkFS [("compile_commands.json",
                  String "["%char (String CR (String LF "]")))] [])
          [].

End Vocabulary.

(** * Properties *)

(** ** Facts about the string primitives *)

Module StrFacts.
Import PyStr.

Lemma startswith_app (p r : string) : startswith p (p +:+ r) = true.
Proof.
  induction p as [|a p IH]; simpl; [reflexivity|].
  rewrite Ascii.eqb_refl. exact IH.
Qed.

Lemma startswith_inv (p s : string) :
  startswith p s = true -> s = p +:+ slice_from (String.length p) s.
Proof.
  revert s. induction p as [|a p IH]; intros s Hs; simpl in *.
  - reflexivity.
  - destruct s as [|b s]; [discriminate|].
    destruct (Ascii.eqb_spec a b) as [->|]; [|discriminate].
    simpl. f_equal. apply IH, Hs.
Qed.

Lemma startswith_iff (p s : string) :
  startswith p s = true <-> exists r, s = p +:+ r.
Proof.
  split.
  - intros Hs. eexists. apply startswith_inv, Hs.
  - intros [r ->]. apply startswith_app.
Qed.

Lemma slice_from_app (p r : string) : slice_from (String.length p) (p +:+ r) = r.
Proof. induction p as [|a p IH]; simpl; [destruct r; reflexivity | exact IH]. Qed.

Lemma slice_to_app (p r : string) : slice_to (String.length p) (p +:+ r) = p.
Proof. induction p as [|a p IH]; simpl; [destruct r; reflexivity | now rewrite IH]. Qed.

Lemma slice_to_from (n : nat) (s : string) : slice_to n s +:+ slice_from n s = s.
Proof.
  revert s. induction n as [|n IH]; intros [|c s]; simpl; try reflexivity.
  now rewrite IH.
Qed.

Lemma startswith_slice_to (p s : string) :
  startswith p s = true <-> slice_to (String.length p) s = p.
Proof.
  split.
  - intros Hs. rewrite (startswith_inv _ _ Hs) at 1. apply slice_to_app.
  - intros Hp. rewrite <- (slice_to_from (String.length p) s), Hp.
    apply startswith_app.
Qed.

Lemma length_app (a b : string) :
  String.length (a +:+ b) = (String.length a + String.length b)%nat.
Proof. induction a as [|c a IH]; simpl; [reflexivity | now rewrite IH]. Qed.

End StrFacts.

Module DictFacts.

Lemma set_same {A} (k : string) (v : A) (d : list (string * A)) :
  Dict.get k d = Some v -> Dict.set k v d = d.
Proof.
  induction d as [|[k' v'] d IH]; simpl; [discriminate|].
  destruct (String.eqb_spec k' k) as [->|Hne].
  - now intros [= ->].
  - intros Hg. now rewrite IH.
Qed.

Lemma get_set_eq {A} (k : string) (v : A) (d : list (string * A)) :
  Dict.get k (Dict.set k v d) = Some v.
Proof.
  induction d as [|[k' v'] d IH]; simpl.
  - now rewrite String.eqb_refl.
  - destruct (String.eqb_spec k' k) as [->|Hne]; simpl.
    + now rewrite String.eqb_refl.
    + destruct (String.eqb_spec k' k); [contradiction | exact IH].
Qed.

Lemma get_set_ne {A} (k k0 : string) (v : A) (d : list (string * A)) :
  k0 <> k -> Dict.get k0 (Dict.set k v d) = Dict.get k0 d.
Proof.
  intros Hne. induction d as [|[k' v'] d IH]; simpl.
  - destruct (String.eqb_spec k k0); [congruence | reflexivity].
  - destruct (String.eqb_spec k' k) as [->|Hk]; simpl.
    + destruct (String.eqb_spec k k0); [congruence | reflexivity].
    + destruct (String.eqb_spec k' k0); [reflexivity | exact IH].
Qed.

Lemma keys_set_present {A} (k : string) (v : A) (d : list (string * A)) :
  Dict.mem k d = true -> map fst (Dict.set k v d) = map fst d.
Proof.
  unfold Dict.mem. induction d as [|[k' v'] d IH]; simpl; [discriminate|].
  destruct (String.eqb_spec k' k) as [->|Hk]; simpl; [reflexivity|].
  intros Hm. now rewrite IH.
Qed.

Lemma keys_set_absent {A} (k : string) (v : A) (d : list (string * A)) :
  Dict.mem k d = false -> map fst (Dict.set k v d) = map fst d ++ [k].
Proof.
  unfold Dict.mem. induction d as [|[k' v'] d IH]; simpl; [reflexivity|].
  destruct (String.eqb_spec k' k) as [->|Hk]; simpl; [discriminate|].
  intros Hm. now rewrite IH.
Qed.

End DictFacts.

(** ** The C to C++ rewrite of [create_compile_commands] *)

Module Normalize.
Import PyStr Vocabulary.

Lemma fix_command_dict (d : list (string * pyval)) (c : string) :
  Dict.get "command" d = Some (PStr c) ->
  fix_command (PDict d)
  = inr (PDict (Dict.set "command" (PStr (command_after c)) d)).
Proof.
  intros Hc. unfold fix_command, command_after. rewrite Hc.
  destruct (startswith "gcc " c); [reflexivity|].
  now rewrite (DictFacts.set_same _ _ _ Hc).
Qed.

(** One round of the loop on an entry whose command begins with the token
    gcc and a space, and on an entry whose command begins otherwise. *)
Lemma fix_command_leading_gcc (d : list (string * pyval)) (c : string) :
  Dict.get "command" d = Some (PStr c) ->
  (forall rest, c = "gcc " +:+ rest ->
     exists d',
       fix_command (PDict d) = inr (PDict d')
       /\ Dict.get "command" d' = Some (PStr ("g++ " +:+ rest))
       /\ map fst d' = map fst d
       /\ forall k, k <> "command" -> Dict.get k d' = Dict.get k d)
  /\ (startswith "gcc " c = false -> fix_command (PDict d) = inr (PDict d)).
Proof.
  intros Hc. split.
  - intros rest ->. eexists. split; [apply (fix_command_dict _ _ Hc)|].
    unfold command_after. rewrite (StrFacts.startswith_app "gcc " rest).
    change 4%nat with (String.length "gcc ").
    rewrite StrFacts.slice_from_app.
    split; [apply DictFacts.get_set_eq|]. split.
    + apply DictFacts.keys_set_present. unfold Dict.mem. now rewrite Hc.
    + intros k Hk. now apply DictFacts.get_set_ne.
  - intros Hno. rewrite (fix_command_dict _ _ Hc). unfold command_after.
    rewrite Hno. now rewrite (DictFacts.set_same _ _ _ Hc).
Qed.

Example fix_command_gcc :
  fix_command (PDict (entry "gcc -c a.cpp")) = inr (PDict (entry "g++ -c a.cpp")).
Proof. reflexivity. Qed.

Example fix_command_clang :
  fix_command (PDict (entry "clang -c a.c")) = inr (PDict (entry "clang -c a.c")).
Proof. reflexivity. Qed.

(** One round of the loop, by the first four characters of the command. *)
Lemma fix_command_prefix (d : list (string * pyval)) (c : string) :
  Dict.get "command" d = Some (PStr c) ->
  exists c',
    fix_command (PDict d) = inr (PDict (Dict.set "command" (PStr c') d))
    /\ (slice_to 4 c = "gcc " ->
          slice_to 4 c' = "g++ " /\ slice_from 4 c' = slice_from 4 c
          /\ String.length c' = String.length c)
    /\ (slice_to 4 c <> "gcc " -> c' = c /\ fix_command (PDict d) = inr (PDict d))
    /\ (c = "gcc" \/ c = "gcc-9 -c a.c" \/ startswith "/usr/bin/gcc" c = true ->
          fix_command (PDict d) = inr (PDict d)).
Proof.
  intros Hc. exists (command_after c).
  split; [apply (fix_command_dict _ _ Hc)|].
  assert (Hother : startswith "gcc " c = false ->
                   command_after c = c /\ fix_command (PDict d) = inr (PDict d)).
  { intros Hno. rewrite (fix_command_dict _ _ Hc). unfold command_after.
    rewrite Hno. now rewrite (DictFacts.set_same _ _ _ Hc). }
  split; [|split].
  - intros H4. apply (StrFacts.startswith_slice_to "gcc " c) in H4.
    unfold command_after. rewrite H4.
    change 4%nat with (String.length "g++ ").
    rewrite StrFacts.slice_to_app, StrFacts.slice_from_app.
    split; [reflexivity|]. split; [reflexivity|].
    rewrite (StrFacts.startswith_inv _ _ H4) at 2.
    now rewrite !StrFacts.length_app.
  - intros H4. apply Hother.
    destruct (startswith "gcc " c) eqn:Hs; [|reflexivity].
    apply (StrFacts.startswith_slice_to "gcc " c) in Hs. contradiction.
  - intros Hcases. apply Hother.
    destruct Hcases as [->|[->|Hpath]]; [reflexivity | reflexivity |].
    apply StrFacts.startswith_iff in Hpath as [r ->]. reflexivity.
Qed.

(** The pass runs the loop body on every entry, in order. *)
Lemma fix_commands_each (all_commands fixed : list pyval) :
  fix_commands all_commands = inr fixed ->
  Forall2 (fun command command' => fix_command command = inr command')
          all_commands fixed.
Proof.
  revert fixed. induction all_commands as [|c rest IH]; intros fixed; simpl.
  - intros [= <-]. constructor.
  - destruct (fix_command c) as [e|c'] eqn:Hc; [discriminate|].
    destruct (fix_commands rest) as [e|rest'] eqn:Hrest; [discriminate|].
    intros [= <-]. constructor; [exact Hc | now apply IH].
Qed.

(** An entry that the loop body accepts is an object with a string under
    the key command. *)
Lemma fix_command_returns (command command' : pyval) :
  fix_command command = inr command' ->
  exists d c, command = PDict d /\ Dict.get "command" d = Some (PStr c).
Proof.
  destruct command as [| | | | |d]; try discriminate.
  unfold fix_command.
  destruct (Dict.get "command" d) as [[| | |c| |]|] eqn:Hd; try discriminate.
  intros _. exists d, c. auto.
Qed.

Example fix_command_bare_gcc :
  fix_command (PDict (entry "gcc")) = inr (PDict (entry "gcc")).
Proof. reflexivity. Qed.

Example fix_command_gcc_by_path :
  fix_command (PDict (entry "/usr/bin/gcc -c a.c")) = inr (PDict (entry "/usr/bin/gcc -c a.c")).
Proof. reflexivity. Qed.

Example fix_command_gcc_variant :
  fix_command (PDict (entry "gcc-9 -c a.c")) = inr (PDict (entry "gcc-9 -c a.c")).
Proof. reflexivity. Qed.

End Normalize.

(** ** The cache-line pattern *)

Module CacheParserFacts.
Import PyStr CacheParser.

Lemma append_assoc (a b c : string) : (a +:+ b) +:+ c = a +:+ (b +:+ c).
Proof. induction a as [|x a IH]; simpl; [reflexivity | now rewrite IH]. Qed.

Lemma append_nil_r (a : string) : a +:+ EmptyString = a.
Proof. induction a as [|x a IH]; simpl; [reflexivity | now rewrite IH]. Qed.

Lemma span_word_sound (s w r : string) :
  span_word s = (w, r) ->
  s = w +:+ r /\ all_word w = true
  /\ match r with String c _ => is_word c = false | EmptyString => True end.
Proof.
  revert w r. induction s as [|c s IH]; intros w r; simpl.
  - intros [= <- <-]. auto.
  - destruct (is_word c) eqn:Hc.
    + destruct (span_word s) as [w' r'] eqn:Hs. intros [= <- <-].
      destruct (IH _ _ eq_refl) as (-> & Hw & Hr).
      simpl. rewrite Hc, Hw. auto.
    + intros [= <- <-]. simpl. auto.
Qed.

Lemma span_word_app (w r : string) :
  all_word w = true ->
  match r with String c _ => is_word c = false | EmptyString => True end ->
  span_word (w +:+ r) = (w, r).
Proof.
  intros Hw Hr. induction w as [|c w IH]; simpl in *.
  - destruct r as [|c r]; simpl; [reflexivity | now rewrite Hr].
  - apply andb_prop in Hw as [Hc Hw]. now rewrite Hc, (IH Hw).
Qed.

Lemma value_to_eol_sound (s v : string) :
  value_to_eol s = Some v ->
  contains LF v = false
  /\ (s = v \/ s = v +:+ String LF EmptyString).
Proof.
  revert v. induction s as [|c s IH]; intros v; simpl.
  - intros [= <-]. auto.
  - destruct (Ascii.eqb_spec c LF) as [->|Hc].
    + destruct s; [|discriminate]. intros [= <-]. auto.
    + destruct (value_to_eol s) as [v'|]; [|discriminate]. intros [= <-].
      destruct (IH _ eq_refl) as (Hv & Hs). simpl.
      destruct (Ascii.eqb_spec c LF); [contradiction|].
      split; [exact Hv|]. destruct Hs as [->| ->]; auto.
Qed.

Lemma value_to_eol_complete (v nl : string) :
  contains LF v = false ->
  nl = EmptyString \/ nl = String LF EmptyString ->
  value_to_eol (v +:+ nl) = Some v.
Proof.
  intros Hv Hnl. induction v as [|c v IH]; simpl in *.
  - destruct Hnl as [->| ->]; reflexivity.
  - destruct (Ascii.eqb c LF); [discriminate|]. now rewrite (IH Hv).
Qed.

(** The function computes the one match of the pattern. *)
Lemma cache_parser_match_iff (l K V : string) :
  cache_parser_match l = Some (K, V) <-> cache_line l K V.
Proof.
  unfold cache_parser_match, cache_line. split.
  - destruct (span_word l) as [k r] eqn:Hs.
    destruct (span_word_sound _ _ _ Hs) as (-> & Hk & Hr).
    destruct k as [|k0 k]; [discriminate|].
    destruct r as [|c r]; [discriminate|].
    destruct (Ascii.eqb_spec c "="%char) as [->|Hne].
    + destruct (value_to_eol r) as [v|] eqn:Hv; [|discriminate]. intros [= <- <-].
      destruct (value_to_eol_sound _ _ Hv) as (HV & Hr').
      destruct Hr' as [->| ->].
      * exists EmptyString, EmptyString. rewrite append_nil_r. simpl. auto 8.
      * exists EmptyString, (String LF EmptyString). simpl. auto 8.
    + destruct (Ascii.eqb_spec c ":"%char) as [->|]; [|discriminate].
      destruct (span_word r) as [t r2] eqn:Ht.
      destruct (span_word_sound _ _ _ Ht) as (-> & Hw & _).
      destruct t as [|t0 t]; [discriminate|].
      destruct r2 as [|e r2]; [discriminate|].
      destruct (Ascii.eqb_spec e "="%char) as [->|]; [|discriminate].
      destruct (value_to_eol r2) as [v|] eqn:Hv; [|discriminate]. intros [= <- <-].
      destruct (value_to_eol_sound _ _ Hv) as (HV & Hr').
      exists (String ":"%char (String t0 t)).
      destruct Hr' as [->| ->].
      * exists EmptyString. rewrite append_nil_r. simpl.
        repeat split; auto; try discriminate.
        right. exists (String t0 t). repeat split; auto; discriminate.
      * exists (String LF EmptyString). simpl.
        repeat split; auto; try discriminate.
        right. exists (String t0 t). repeat split; auto; discriminate.
  - intros (T & nl & -> & HK & HKw & HT & HV & Hnl).
    destruct HT as [->|(W & -> & HW & HWw)]; simpl.
    + rewrite span_word_app by (auto; reflexivity).
      destruct K; [contradiction|]. simpl.
      now rewrite value_to_eol_complete.
    + rewrite span_word_app by (auto; reflexivity).
      destruct K; [contradiction|]. simpl.
      rewrite span_word_app by (auto; reflexivity).
      destruct W; [contradiction|]. simpl.
      now rewrite value_to_eol_complete.
Qed.

End CacheParserFacts.

(** ** The reconfigure decision *)

Module ReconfigureFacts.
Import PyStr CacheParser Reconfigure Vocabulary.
#[local] Arguments slice_to : simpl never.
#[local] Arguments slice_from : simpl never.

Lemma split_once_iff (c : ascii) (s k v : string) :
  split_once c s = Some (k, v) <-> s = k +:+ String c v /\ contains c k = false.
Proof.
  revert k. induction s as [|a s IH]; intros k; simpl.
  - split; [discriminate|]. intros [Hs _]. destruct k; discriminate.
  - destruct (Ascii.eqb_spec a c) as [->|Hne].
    + split.
      * intros [= <- <-]. auto.
      * intros [Hs Hk]. destruct k as [|b k]; simpl in *.
        -- now injection Hs as ->.
        -- injection Hs as <- _. now rewrite Ascii.eqb_refl in Hk.
    + split.
      * destruct (split_once c s) as [[k' v']|] eqn:Hsp; [|discriminate].
        intros [= <- <-]. destruct (proj1 (IH k') eq_refl) as [-> Hk].
        simpl. destruct (Ascii.eqb_spec a c); [contradiction | auto].
      * intros [Hs Hk]. destruct k as [|b k]; simpl in *.
        -- injection Hs as -> _. contradiction.
        -- injection Hs as <- ->.
           destruct (Ascii.eqb_spec a c); [discriminate|].
           now rewrite (proj2 (IH k) (conj eq_refl Hk)).
Qed.

Lemma split_once_none (c : ascii) (s : string) :
  split_once c s = None <-> contains c s = false.
Proof.
  induction s as [|a s IH]; simpl; [tauto|].
  destruct (Ascii.eqb a c); [split; discriminate|].
  destruct (split_once c s) as [[k v]|].
  - split; [discriminate|]. intros Hc. apply IH in Hc. discriminate.
  - split; [|reflexivity]. intros _. now apply IH.
Qed.

Lemma for_lines_iff (k v : string) (cache_contents : list string) :
  for_lines k v cache_contents = true
  <-> exists l V, In l cache_contents /\ cache_line l k V /\ V <> v.
Proof.
  induction cache_contents as [|l rest IH]; simpl.
  - split; [discriminate | intros (? & ? & [] & _)].
  - destruct (cache_parser_match l) as [[K V]|] eqn:Hm.
    + apply CacheParserFacts.cache_parser_match_iff in Hm as Hl.
      destruct (String.eqb_spec K k) as [->|HK]; simpl.
      * destruct (String.eqb_spec V v) as [->|HV]; simpl.
        -- rewrite IH. split.
           ++ intros (l' & V' & Hin & Hrest). exists l', V'. tauto.
           ++ intros (l' & V' & [<-|Hin] & Hl' & HV'); [|eauto].
              apply CacheParserFacts.cache_parser_match_iff in Hl'. congruence.
        -- split; [|reflexivity]. intros _. exists l, V. auto.
      * rewrite IH. split.
        -- intros (l' & V' & Hin & Hrest). exists l', V'. tauto.
        -- intros (l' & V' & [<-|Hin] & Hl' & HV'); [|eauto].
           apply CacheParserFacts.cache_parser_match_iff in Hl'. congruence.
    + rewrite IH. split.
      * intros (l' & V' & Hin & Hrest). exists l', V'. tauto.
      * intros (l' & V' & [<-|Hin] & Hl' & HV'); [|eauto].
        apply CacheParserFacts.cache_parser_match_iff in Hl'. congruence.
Qed.

(** What one round of the outer loop compares. *)
Lemma mismatch_iff (cache_contents : list string) (arg k0 v : string) :
  String.eqb (slice_to 2 arg) "-G" = false ->
  split_once "="%char arg = Some (k0, v) ->
  mismatch cache_contents arg <-> for_lines (slice_from 2 k0) v cache_contents = true.
Proof.
  intros HG Hsp. rewrite for_lines_iff. unfold mismatch, requested. split.
  - intros (k & v' & l & V & (_ & k1 & Harg & Hk1 & ->) & Hin & Hl & HV).
    assert (Hsp' : split_once "="%char arg = Some (k1, v'))
      by (apply split_once_iff; auto).
    rewrite Hsp in Hsp'. injection Hsp' as <- <-. eauto.
  - intros (l & V & Hin & Hl & HV).
    apply split_once_iff in Hsp as [Harg Hk0].
    exists (slice_from 2 k0), v, l, V. repeat split; auto.
    + intros HG'. rewrite HG' in HG. discriminate.
    + exists k0. auto.
Qed.

Lemma mismatch_not_generator (cache_contents : list string) (arg : string) :
  String.eqb (slice_to 2 arg) "-G" = true -> ~ mismatch cache_contents arg.
Proof.
  intros HG (k & v & l & V & (Hno & _) & _). apply String.eqb_eq in HG. contradiction.
Qed.

Lemma for_args_comparable (cache_contents cmake_args : list string) :
  Forall comparable cmake_args ->
  exists b, for_args cache_contents cmake_args = inr b
            /\ (b = true <-> exists arg, In arg cmake_args /\ mismatch cache_contents arg).
Proof.
  induction 1 as [|arg rest Harg _ IH]; simpl.
  - exists false. split; [reflexivity|]. split; [discriminate | intros (? & [] & _)].
  - destruct IH as (b & Hb & Hiff).
    destruct (String.eqb (slice_to 2 arg) "-G") eqn:HG.
    + exists b. split; [exact Hb|]. rewrite Hiff. split.
      * intros (a & Hin & Hm). eauto.
      * intros (a & [<-|Hin] & Hm); [|eauto].
        now apply mismatch_not_generator in Hm.
    + destruct (split_once "="%char arg) as [[k0 v]|] eqn:Hsp.
      * pose proof (mismatch_iff cache_contents _ _ _ HG Hsp) as Hmm.
        destruct (for_lines (slice_from 2 k0) v cache_contents) eqn:Hfl.
        -- exists true. split; [reflexivity|]. split; [|reflexivity].
           intros _. exists arg. split; [now left | now apply Hmm].
        -- exists b. split; [exact Hb|]. rewrite Hiff. split.
           ++ intros (a & Hin & Hm). eauto.
           ++ intros (a & [<-|Hin] & Hm); [|eauto].
              apply Hmm in Hm. discriminate.
      * apply split_once_none in Hsp. destruct Harg as [HG'|Heq].
        -- rewrite HG' in HG. discriminate.
        -- congruence.
Qed.

(** The loop raises exactly at the first argument it cannot split, provided
    it gets there. *)
Lemma for_args_raises (cache_contents cmake_args : list string) (e : exn) :
  for_args cache_contents cmake_args = inl e
  <-> e = ValueError
      /\ exists pre arg post,
           cmake_args = pre ++ arg :: post
           /\ ~ comparable arg
           /\ Forall comparable pre
           /\ forall a, In a pre -> ~ mismatch cache_contents a.
Proof.
  induction cmake_args as [|arg rest IH]; simpl.
  - split; [discriminate|]. intros (_ & [|] & ? & ? & ? & _); discriminate.
  - destruct (String.eqb (slice_to 2 arg) "-G") eqn:HG.
    + rewrite IH. apply String.eqb_eq in HG as HG'. split.
      * intros (-> & pre & a & post & -> & Ha & Hpre & Hno).
        split; [reflexivity|]. exists (arg :: pre), a, post.
        repeat split; auto.
        -- constructor; [now left | exact Hpre].
        -- intros a' [<-|Hin]; [|now apply Hno].
           apply mismatch_not_generator. now rewrite HG.
      * intros (-> & pre & a & post & Heq & Ha & Hpre & Hno).
        split; [reflexivity|]. destruct pre as [|p pre]; simpl in Heq.
        -- injection Heq as <- ->. exfalso. apply Ha. now left.
        -- injection Heq as <- ->. exists pre, a, post.
           inversion Hpre; subst. repeat split; auto.
           intros a' Hin. apply Hno. now right.
    + destruct (split_once "="%char arg) as [[k0 v]|] eqn:Hsp.
      * pose proof (mismatch_iff cache_contents _ _ _ HG Hsp) as Hmm.
        assert (Hcmp : comparable arg).
        { right. destruct (contains "="%char arg) eqn:Hc; [reflexivity|].
          apply split_once_none in Hc. congruence. }
        destruct (for_lines (slice_from 2 k0) v cache_contents) eqn:Hfl.
        -- split; [discriminate|].
           intros (_ & pre & a & post & Heq & Ha & Hpre & Hno).
           destruct pre as [|p pre]; simpl in Heq.
           ++ injection Heq as <- ->. contradiction.
           ++ injection Heq as <- ->. exfalso.
              apply (Hno arg); [now left | now apply Hmm].
        -- rewrite IH. split.
           ++ intros (-> & pre & a & post & -> & Ha & Hpre & Hno).
              split; [reflexivity|]. exists (arg :: pre), a, post.
              repeat split; auto.
              intros a' [<-|Hin]; [|now apply Hno].
              intros Hm. apply Hmm in Hm. discriminate.
           ++ intros (-> & pre & a & post & Heq & Ha & Hpre & Hno).
              split; [reflexivity|]. destruct pre as [|p pre]; simpl in Heq.
              ** injection Heq as <- ->. contradiction.
              ** injection Heq as <- ->. exists pre, a, post.
                 inversion Hpre; subst. repeat split; auto.
                 intros a' Hin. apply Hno. now right.
      * apply split_once_none in Hsp. split.
        -- intros [= <-]. split; [reflexivity|]. exists [], arg, rest.
           repeat split; auto.
           intros [HG'|Hc]; [rewrite HG' in HG; discriminate | congruence].
        -- intros (-> & _). reflexivity.
Qed.

Lemma run_cmake_unforced (self : CMakeBuild) (cmake_args : list string) (w : World)
      (f : pyval) :
  args w !! "force_cmake" = Some f -> truthy f = false ->
  run_cmake self cmake_args w
  = match Dict.get (osp.join (build_temp self) "CMakeCache.txt") (files (fs w)) with
    | Some contents => (for_args (readlines contents) cmake_args, w)
    | None => (inr true, w)
    end.
Proof.
  intros Hf Ht.
  unfold run_cmake, bind, getattr, path_exists, gets, open_readlines, lift, ret.
  rewrite Hf, Ht. unfold Dict.mem.
  destruct (Dict.get _ (files (fs w))) eqn:Hg; [|reflexivity].
  now rewrite Hg.
Qed.

End ReconfigureFacts.

Module ReconfigureClaims.
Import PyStr CacheParser Reconfigure Vocabulary ReconfigureFacts.



(** State file A:STRING=1, B:STRING=3 against the request A=1, B=2. *)
Example run_cmake_B_differs :
  fst (run_cmake self0 ["-DA=1"; "-DB=2"] (world_with_cache false cache_B3)) = inr true.
Proof. vm_compute. reflexivity. Qed.

(** State file A:STRING=1, B:STRING=2 against the request A=1, B=2. *)
Example run_cmake_all_equal :
  fst (run_cmake self0 ["-DA=1"; "-DB=2"] (world_with_cache false cache_B2)) = inr false.
Proof. vm_compute. reflexivity. Qed.

(** A key the state file does not have. *)
Example run_cmake_key_absent :
  fst (run_cmake self0 ["-DA=1"; "-DC=7"] (world_with_cache false cache_B2)) = inr false.
Proof. vm_compute. reflexivity. Qed.

(** C8. With the force flag set [run_cmake] returns true on every list of
    arguments and every world: whatever the generator state file holds,
    whether it is there or not, and without touching the world. *)
Theorem run_cmake_forced (self : CMakeBuild) (cmake_args : list string) (w : World)
        (f : pyval) :
  args w !! "force_cmake" = Some f ->
  truthy f = true ->
  run_cmake self cmake_args w = (inr true, w).
Proof.
  intros Hf Ht. unfold run_cmake, bind, getattr, ret. now rewrite Hf, Ht.
Qed.

Lemma run_cmake_forced_witness :
  run_cmake self0 ["-Wno-dev"; "-DB=2"] (world_with_cache true cache_B2)
  = (inr true, world_with_cache true cache_B2).
Proof.
  apply (run_cmake_forced self0 ["-Wno-dev"; "-DB=2"] (world_with_cache true cache_B2)
           (PBool true)).
  - vm_compute. reflexivity.
  - reflexivity.
Defined.

(** C9 as stated fails: an argument without an equals sign does not make
    [run_cmake] raise when an earlier argument already differs from the
    state file. *)
Lemma run_cmake_returns_before_bad_argument :
  ~ (forall (self : CMakeBuild) (cmake_args : list string) (w : World)
            (f : pyval) (contents : string),
        args w !! "force_cmake" = Some f ->
        truthy f = false ->
        Dict.get (osp.join (build_temp self) "CMakeCache.txt") (files (fs w))
        = Some contents ->
        (exists arg, In arg cmake_args /\ ~ comparable arg) ->
        fst (run_cmake self cmake_args w) = inl ValueError).
Proof.
  intros Hclaim.
  specialize (Hclaim self0 ["-DB=2"; "-Wno-dev"] (world_with_cache false cache_B3)
                (PBool false) cache_B3).
  assert (Hrun : fst (run_cmake self0 ["-DB=2"; "-Wno-dev"]
                        (world_with_cache false cache_B3)) = inr true)
    by (vm_compute; reflexivity).
  rewrite Hrun in Hclaim.
  assert (Hbad : inr true = @inl exn bool ValueError); [|discriminate Hbad].
  apply Hclaim.
  - vm_compute. reflexivity.
  - reflexivity.
  - reflexivity.
  - exists "-Wno-dev". split; [right; left; reflexivity|].
    intros [HG|Heq]; discriminate.
Qed.

(** C9, amended. With the force flag unset and the generator state file
    present, both the file and the arguments being ASCII text, [run_cmake]
    raises exactly when some argument is neither a generator flag nor has an
    equals sign while every argument before it is comparable and none of
    them differs from the state file; the exception is then [ValueError] and
    the world is untouched. When every argument is a generator flag or has
    an equals sign it returns a boolean. *)
Theorem run_cmake_raises_iff (self : CMakeBuild) (cmake_args : list string) (w : World)
        (f : pyval) (contents : string) :
  args w !! "force_cmake" = Some f ->
  truthy f = false ->
  Dict.get (osp.join (build_temp self) "CMakeCache.txt") (files (fs w)) = Some contents ->
  is_ascii contents = true ->
  Forall ascii_text cmake_args ->
  (forall e,
     run_cmake self cmake_args w = (inl e, w)
     <-> e = ValueError
         /\ exists pre arg post,
              cmake_args = pre ++ arg :: post
              /\ ~ comparable arg
              /\ Forall comparable pre
              /\ forall a, In a pre -> ~ mismatch (readlines contents) a)
  /\ snd (run_cmake self cmake_args w) = w
  /\ (Forall comparable cmake_args ->
      exists b, run_cmake self cmake_args w = (inr b, w)).
Proof.
  intros Hf Ht Hfile _ _.
  rewrite (run_cmake_unforced _ _ _ _ Hf Ht), Hfile. split; [|split].
  - intros e. rewrite <- for_args_raises. split.
    + now intros [= ->].
    + now intros ->.
  - reflexivity.
  - intros Hargs.
    destruct (for_args_comparable (readlines contents) cmake_args Hargs) as (b & Hb & _).
    exists b. now rewrite Hb.
Qed.

Lemma run_cmake_raises_iff_witness :
  run_cmake self0 ["-DA=1"; "-Wno-dev"; "-DB=2"] (world_with_cache false cache_B3)
  = (inl ValueError, world_with_cache false cache_B3).
Proof.
  destruct (run_cmake_raises_iff self0 ["-DA=1"; "-Wno-dev"; "-DB=2"]
              (world_with_cache false cache_B3) (PBool false) cache_B3)
    as (Hraise & _).
  - vm_compute. reflexivity.
  - reflexivity.
  - reflexivity.
  - reflexivity.
  - constructor; [reflexivity|].
    constructor; [reflexivity|]. constructor; [reflexivity | constructor].
  - apply Hraise. split; [reflexivity|].
    exists ["-DA=1"], "-Wno-dev", ["-DB=2"]. split; [reflexivity|]. split.
    + intros [HG|Heq]; discriminate.
    + split.
      * constructor; [right; reflexivity | constructor].
      * intros a [<-|[]] Hm.
        apply (mismatch_iff (readlines cache_B3) "-DA=1" "-DA" "1") in Hm;
          [discriminate Hm | reflexivity | reflexivity].
Defined.

End ReconfigureClaims.

(** ** What the steps of the script leave alone *)

Module FrameFacts.
Import Vocabulary.

#[export] Instance environ_frame : Frame environ.
Proof. split; reflexivity. Qed.
#[export] Instance environ_frame_args : FrameArgs environ.
Proof. intros a w. reflexivity. Qed.
#[export] Instance environ_frame_write : FrameWrite environ.
Proof. intros p c w. reflexivity. Qed.

#[export] Instance args_frame : Frame args.
Proof. split; reflexivity. Qed.
#[export] Instance args_frame_write : FrameWrite args.
Proof. intros p c w. reflexivity. Qed.

#[export] Instance writes_frame : Frame (fun w => writes (log w)).
Proof.
  split; intros; simpl; try reflexivity;
    unfold writes; rewrite List.filter_app; simpl; apply app_nil_r.
Qed.
#[export] Instance writes_frame_args : FrameArgs (fun w => writes (log w)).
Proof. intros a w. reflexivity. Qed.

Create HintDb keeps.

Section Keeps.
Context `{Externals} {X : Type} (obs : World -> X) `{!Frame obs}.

Lemma keeps_ret {A} (a : A) : keeps obs (ret a).
Proof. intros w. reflexivity. Qed.

Lemma keeps_raise {A} (e : exn) : keeps obs (@raise A e).
Proof. intros w. reflexivity. Qed.

Lemma keeps_gets {A} (f : World -> A) : keeps obs (gets f).
Proof. intros w. reflexivity. Qed.

Lemma keeps_lift {A} (r : exn + A) : keeps obs (lift r).
Proof. intros w. reflexivity. Qed.

Lemma keeps_bind {A B} (c : M A) (k : A -> M B) :
  keeps obs c -> (forall a, keeps obs (k a)) -> keeps obs (bind c k).
Proof.
  intros Hc Hk w. unfold bind. specialize (Hc w).
  destruct (c w) as [[e|a] w1]; simpl in *; [exact Hc|].
  now rewrite Hk.
Qed.

Lemma keeps_getattr (name : string) : keeps obs (getattr name).
Proof. intros w. unfold getattr. now destruct (args w !! name). Qed.

Lemma keeps_path_exists (p : string) : keeps obs (path_exists p).
Proof. apply keeps_gets. Qed.

Lemma keeps_islink (p : string) : keeps obs (islink p).
Proof. apply keeps_gets. Qed.

Lemma keeps_read_text (p : string) : keeps obs (read_text p).
Proof. intros w. unfold read_text. now destruct (Dict.get p (files (fs w))). Qed.

Lemma keeps_open_readlines (p : string) : keeps obs (open_readlines p).
Proof. intros w. unfold open_readlines. now destruct (Dict.get p (files (fs w))). Qed.

Lemma keeps_symlink (src dst : string) : keeps obs (symlink src dst).
Proof.
  intros w. unfold symlink.
  destruct (Dict.mem dst (files (fs w)) || bool_decide (dst ∈ links (fs w)));
    simpl; [reflexivity|].
  change (emit (ESymlink src dst) (set_fs ?f w))
    with (set_fs f (emit (ESymlink src dst) w)).
  now rewrite frame_fs, frame_symlink.
Qed.

Lemma keeps_check_call (argv : list string) (env : gmap string string) :
  keeps obs (check_call argv env).
Proof.
  intros w. unfold check_call.
  destruct (subprocess argv env (fs (emit (ESpawn argv) w))) as [rc after|]; simpl.
  - destruct rc; simpl; now rewrite frame_fs, frame_spawn.
  - apply frame_spawn.
Qed.

Lemma keeps_succeeds (c : M unit) : keeps obs c -> keeps obs (succeeds c).
Proof.
  intros Hc w. unfold succeeds. specialize (Hc w).
  now destruct (c w) as [[e|a] w1].
Qed.

Lemma keeps_in_git : keeps obs in_git.
Proof.
  apply keeps_bind; [apply keeps_gets|]. intros env.
  apply keeps_succeeds, keeps_check_call.
Qed.

Lemma keeps_has_ninja : keeps obs has_ninja.
Proof.
  apply keeps_bind; [apply keeps_gets|]. intros env.
  apply keeps_succeeds, keeps_check_call.
Qed.

Lemma keeps_is_pip : keeps obs is_pip.
Proof. apply keeps_gets. Qed.

Lemma keeps_load (filename : string) : keeps obs (load filename).
Proof.
  apply keeps_bind; [apply keeps_read_text|]. intros text.
  destruct (json_loads text); [apply keeps_ret | apply keeps_raise].
Qed.

Lemma keeps_load_all (commands : list string) : keeps obs (load_all commands).
Proof.
  induction commands as [|f rest IH]; simpl; [apply keeps_ret|].
  apply keeps_bind; [apply keeps_load|]. intros v.
  apply keeps_bind; [apply keeps_lift|]. intros entries.
  apply keeps_bind; [exact IH|]. intros more. apply keeps_ret.
Qed.

Lemma keeps_glob : keeps obs glob_compile_commands.
Proof. apply keeps_gets. Qed.

Lemma keeps_shlex_split_val (v : pyval) : keeps obs (shlex_split_val v).
Proof.
  destruct v; simpl; try apply keeps_raise.
  - destruct (shlex_split stdin); [apply keeps_ret | apply keeps_raise].
  - destruct (shlex_split s); [apply keeps_ret | apply keeps_raise].
Qed.

Lemma keeps_run_cmake (self : CMakeBuild) (cmake_args : list string) :
  keeps obs (Reconfigure.run_cmake self cmake_args).
Proof.
  apply keeps_bind; [apply keeps_getattr|]. intros force_cmake.
  destruct (truthy force_cmake); [apply keeps_ret|].
  apply keeps_bind; [apply keeps_path_exists|]. intros [|]; [|apply keeps_ret].
  apply keeps_bind; [apply keeps_open_readlines|]. intros contents. apply keeps_lift.
Qed.

Lemma keeps_cache_eligible (f : string) : keeps obs (cache_eligible f).
Proof.
  apply keeps_bind; [apply keeps_is_pip|]. intros [|]; [apply keeps_ret|].
  apply keeps_bind; [apply keeps_getattr|]. intros v.
  destruct (truthy v); [apply keeps_ret | apply keeps_path_exists].
Qed.

Lemma keeps_write_text `{!FrameWrite obs} (p c : string) : keeps obs (write_text p c).
Proof.
  intros w. unfold write_text, modify. simpl.
  change (emit (EWrite p c) (set_fs ?f w)) with (set_fs f (emit (EWrite p c) w)).
  now rewrite frame_fs, frame_write.
Qed.

Lemma keeps_setattr `{!FrameArgs obs} (name : string) (v : pyval) :
  keeps obs (setattr name v).
Proof.
  intros w. unfold setattr.
  destruct (String.eqb name "__dict__").
  { destruct v; try reflexivity. apply frame_args. }
  destruct (String.eqb name "__class__"); [reflexivity|].
  destruct (String.eqb name "__weakref__"); [reflexivity|].
  apply frame_args.
Qed.

Lemma keeps_create_compile_commands `{!FrameWrite obs} :
  keeps obs create_compile_commands.
Proof.
  apply keeps_bind; [apply keeps_glob|]. intros commands.
  apply keeps_bind; [apply keeps_load_all|]. intros all_commands.
  apply keeps_bind; [apply keeps_lift|]. intros fixed.
  apply keeps_bind; [apply keeps_path_exists|]. intros found.
  apply keeps_bind.
  { destruct found; [apply keeps_read_text | apply keeps_ret]. }
  intros contents.
  destruct (negb _); [apply keeps_write_text | apply keeps_ret].
Qed.

End Keeps.

End FrameFacts.

Module BuildFrame.
Import Vocabulary FrameFacts.

Ltac keeps_step :=
  first
    [ apply keeps_ret | apply keeps_raise | apply keeps_gets | apply keeps_lift
    | apply keeps_getattr | apply keeps_path_exists | apply keeps_islink
    | apply keeps_read_text | apply keeps_symlink | apply keeps_check_call
    | apply keeps_in_git | apply keeps_has_ninja | apply keeps_is_pip
    | apply keeps_shlex_split_val | apply keeps_run_cmake
    | apply keeps_create_compile_commands | apply keeps_write_text
    | apply keeps_setattr | apply keeps_cache_eligible | apply keeps_load
    | apply keeps_bind; [|intros ?]
    | match goal with
      | |- keeps _ (if ?b then _ else _) => destruct b
      | |- keeps _ (match ?x with _ => _ end) => destruct x
      end ].

Ltac keeps_auto := repeat (keeps_step; try assumption).

Section Build.
Context `{Externals} {X : Type} (obs : World -> X) `{!Frame obs} `{!FrameWrite obs}.
Hypothesis restore_keeps : forall items, keeps obs (restore_args items).

Lemma keeps_load_cached_args (f : string) : keeps obs (load_cached_args f).
Proof. unfold load_cached_args. keeps_auto. apply restore_keeps. Qed.

Lemma keeps_build_extension (self : CMakeBuild) (ext : CMakeExtension) :
  keeps obs (build_extension self ext).
Proof.
  unfold build_extension, shlex_split_str. cbv zeta.
  apply keeps_bind; [apply keeps_load_cached_args|]. intros _.
  keeps_auto.
Qed.


Lemma keeps_for_extensions (self : CMakeBuild) (extensions : list CMakeExtension) :
  keeps obs (for_extensions self extensions).
Proof.
  induction extensions as [|ext rest IH]; simpl; [apply keeps_ret|].
  apply keeps_bind; [apply keeps_build_extension | intros _; exact IH].
Qed.

End Build.

Lemma restore_args_keeps_unrelated `{Externals} {X : Type} (obs : World -> X)
      `{!FrameArgs obs} (items : list (string * pyval)) :
  keeps obs (restore_args items).
Proof.
  induction items as [|[k v] rest IH]; simpl; [intros w; reflexivity|].
  apply keeps_bind; [|intros _; exact IH].
  destruct (bool_decide (k ∈ ARG_CACHE_BLACKLIST));
    [apply keeps_ret | now apply keeps_setattr].
Qed.

#[export] Instance lookup_frame (k : string) : Frame (fun w => args w !! k).
Proof. split; reflexivity. Qed.
#[export] Instance lookup_frame_write (k : string) : FrameWrite (fun w => args w !! k).
Proof. intros p c w. reflexivity. Qed.



End BuildFrame.

(** ** The argument cache *)

Module ArgumentCache.
Import PyStr Vocabulary FrameFacts BuildFrame.

Lemma load_run `{Externals} (f : string) (w : World) :
  load f w
  = (match Dict.get f (files (fs w)) with
     | Some text =>
         match json_loads (universal_newlines text) with
         | Some v => inr v
         | None => inl JSONDecodeError
         end
     | None => inl (FileNotFoundError f)
     end, w).
Proof.
  unfold load, bind, read_text.
  destruct (Dict.get f (files (fs w))) as [text|]; [|reflexivity].
  now destruct (json_loads (universal_newlines text)).
Qed.

Lemma cache_eligible_run `{Externals} (f : string) (w : World) :
  cache_eligible f w
  = (if pip_driven (environ w) then inr false
     else match args w !! "no_cached_args" with
          | Some v => inr (if truthy v then false else Dict.mem f (files (fs w)))
          | None => inl AttributeError
          end, w).
Proof.
  unfold cache_eligible, bind, is_pip, gets, getattr, path_exists, ret.
  fold (pip_driven (environ w)).
  destruct (pip_driven (environ w)); [reflexivity|].
  destruct (args w !! "no_cached_args") as [v|]; [|reflexivity].
  now destruct (truthy v).
Qed.

(** One assignment, case by case. *)
Lemma setattr_run (name : string) (v : pyval) (w : World) :
  setattr name v w
  = if unsettable (name, v)
    then (inl (if String.eqb name "__weakref__" then AttributeError else TypeError), w)
    else (inr tt,
          set_args (match v with
                    | PDict d =>
                        if String.eqb name "__dict__" then list_to_map d
                        else <[name := v]> (args w)
                    | _ => <[name := v]> (args w)
                    end) w).
Proof.
  unfold setattr, unsettable. cbn [fst snd].
  destruct (String.eqb_spec name "__dict__") as [->|Hd].
  { destruct v; reflexivity. }
  destruct (String.eqb_spec name "__class__") as [->|Hc]; [reflexivity|].
  destruct (String.eqb_spec name "__weakref__") as [->|Hw]; [reflexivity|].
  cbn [orb]. destruct v; reflexivity.
Qed.

Lemma setattr_ordinary (name : string) (v : pyval) (w : World) :
  is_descriptor name = false ->
  setattr name v w = (inr tt, set_args (<[name := v]> (args w)) w).
Proof.
  unfold is_descriptor, setattr. intros Hname.
  destruct (String.eqb name "__dict__"); [discriminate|].
  destruct (String.eqb name "__class__"); [discriminate|].
  destruct (String.eqb name "__weakref__"); [discriminate|]. reflexivity.
Qed.


Lemma restore_args_settable (items : list (string * pyval)) (w : World) :
  Forall (fun kv => unsettable kv = false) items ->
  fst (restore_args items w) = inr tt.
Proof.
  intros Hitems. revert w.
  induction Hitems as [|[k v] rest Hkv _ IH]; intros w; simpl; [reflexivity|].
  unfold bind. destruct (bool_decide (k ∈ ARG_CACHE_BLACKLIST)); simpl; [apply IH|].
  rewrite setattr_run, Hkv. apply IH.
Qed.








(** The same cache does replace the headless toggle, which is not on the
    blacklist. *)
Example headless_is_restored :
  args (snd (@load_cached_args sample "build/temp/setuppy_args.json" world_cached_forced))
    !! "headless"
  = Some (PBool true).
Proof. vm_compute. reflexivity. Qed.



(** An object with an item that cannot be set: the load raises after it has
    set the items before it. *)
Example load_cached_args_raises_midway :
  fst (@load_cached_args sample_poisoned "build/temp/setuppy_args.json"
         world_cache_unsettable) = inl TypeError
  /\ args (snd (@load_cached_args sample_poisoned "build/temp/setuppy_args.json"
                  world_cache_unsettable)) !! "headless" = Some (PBool true).
Proof. split; vm_compute; reflexivity. Qed.

End ArgumentCache.

(** ** The environment overrides *)

Module EnvironmentOverrides.
Import PyStr Vocabulary.

Lemma environment_overrides_run (w : World) :
  environment_overrides w
  = (inr tt,
     let a1 := if String.eqb (lower (default EmptyString (environ w !! "HEADLESS"))) "true"
               then <["headless" := PBool true]> (args w) else args w in
     let a2 := match environ w !! "CMAKE_ARGS" with
               | Some v => <["cmake_args" := PStr v]> a1
               | None => a1
               end in
     set_args a2 w).
Proof.
  unfold environment_overrides, bind, gets, setattr, modify, ret. simpl.
  destruct (String.eqb _ "true"); simpl;
    destruct (environ w !! "CMAKE_ARGS"); simpl; try reflexivity;
    destruct w; reflexivity.
Qed.

(** C7 as stated fails: HEADLESS=false in the environment does not decide
    the headless toggle. The toggle follows the flag, so no reading of the
    value of the variable gives the toggle. *)
Lemma headless_follows_flag_not_environment :
  ~ exists reading : string -> pyval,
      forall (w : World) (s : string),
        environ w !! "HEADLESS" = Some s ->
        args (snd (environment_overrides w)) !! "headless" = Some (reading s).
Proof.
  intros [reading Hclaim].
  pose proof (Hclaim (world_headless_flag true) "false" eq_refl) as Hon.
  pose proof (Hclaim (world_headless_flag false) "false" eq_refl) as Hoff.
  assert (Ha : args (snd (environment_overrides (world_headless_flag true))) !! "headless"
               = Some (PBool true)) by (vm_compute; reflexivity).
  assert (Hb : args (snd (environment_overrides (world_headless_flag false))) !! "headless"
               = Some (PBool false)) by (vm_compute; reflexivity).
  rewrite Ha in Hon. rewrite Hb in Hoff. congruence.
Qed.

(** C7, amended. The overrides never raise. Afterwards the passthrough
    string is the value of CMAKE_ARGS whenever that variable is present, and
    the flag's otherwise; the headless toggle is true when the value of
    HEADLESS, in lower case, is the word true, and is what the flag made it
    in every other case, the variable being present or not. *)
Theorem environment_overrides_effect (w : World) :
  fst (environment_overrides w) = inr tt
  /\ args (snd (environment_overrides w)) !! "cmake_args"
     = match environ w !! "CMAKE_ARGS" with
       | Some v => Some (PStr v)
       | None => args w !! "cmake_args"
       end
  /\ args (snd (environment_overrides w)) !! "headless"
     = if String.eqb (lower (default EmptyString (environ w !! "HEADLESS"))) "true"
       then Some (PBool true)
       else args w !! "headless".
Proof.
  rewrite environment_overrides_run. simpl. split; [reflexivity|].
  destruct (String.eqb _ "true"); destruct (environ w !! "CMAKE_ARGS"); simpl;
    split;
    repeat first [ rewrite lookup_insert_eq | rewrite lookup_insert_ne by discriminate ];
    reflexivity.
Qed.

Example environment_overrides_both_set :
  args (snd (environment_overrides world_env_set)) !! "cmake_args" = Some (PStr "-DB=2")
  /\ args (snd (environment_overrides world_env_set)) !! "headless" = Some (PBool true).
Proof. split; vm_compute; reflexivity. Qed.

End EnvironmentOverrides.

(** ** The compile-command merger *)

Module Merger.
Import PyStr Vocabulary.

Lemma load_all_run `{Externals} (commands : list string) (w : World) :
  snd (load_all commands w) = w.
Proof.
  induction commands as [|f rest IH]; simpl; [reflexivity|].
  unfold bind. rewrite ArgumentCache.load_run. simpl.
  destruct (Dict.get f (files (fs w))) as [text|]; [|reflexivity].
  destruct (json_loads (universal_newlines text)) as [v|]; [|reflexivity].
  unfold lift. destruct (py_iter v) as [e|entries]; [reflexivity|].
  destruct (load_all rest w) as [[e|more] w1] eqn:Hrest; simpl in *; subst; reflexivity.
Qed.

(** The merge reads the files that [glob] found and nothing else. *)
Lemma load_all_same_files `{Externals} (commands : list string) (w1 w2 : World) :
  (forall p, In p commands -> Dict.get p (files (fs w1)) = Dict.get p (files (fs w2))) ->
  fst (load_all commands w1) = fst (load_all commands w2).
Proof.
  induction commands as [|f rest IH]; intros Hsame; simpl; [reflexivity|].
  unfold bind. rewrite !ArgumentCache.load_run. simpl.
  rewrite <- (Hsame f) by now left.
  destruct (Dict.get f (files (fs w1))) as [text|]; [|reflexivity].
  destruct (json_loads (universal_newlines text)) as [v|]; [|reflexivity].
  unfold lift. destruct (py_iter v) as [e|entries]; [reflexivity|].
  assert (Hrest : fst (load_all rest w1) = fst (load_all rest w2)).
  { apply IH. intros p Hp. apply Hsame. now right. }
  pose proof (load_all_run rest w1) as H1. pose proof (load_all_run rest w2) as H2.
  destruct (load_all rest w1) as [[e1|m1] u1], (load_all rest w2) as [[e2|m2] u2];
    simpl in *; congruence.
Qed.

Lemma merged_commands_run `{Externals} (w : World) : snd (merged_commands w) = w.
Proof.
  unfold merged_commands, bind, glob_compile_commands, gets, lift, ret.
  pose proof (load_all_run (List.filter glob_match (map fst (files (fs w)))) w) as Hw.
  destruct (load_all _ w) as [[e|all] w1]; simpl in *; subst; [reflexivity|].
  now destruct (fix_commands all).
Qed.

Lemma merged_commands_same_inputs `{Externals} (w1 w2 : World) :
  List.filter glob_match (map fst (files (fs w1)))
  = List.filter glob_match (map fst (files (fs w2))) ->
  (forall p, glob_match p = true ->
             Dict.get p (files (fs w1)) = Dict.get p (files (fs w2))) ->
  fst (merged_commands w1) = fst (merged_commands w2).
Proof.
  intros Hglob Hsame.
  unfold merged_commands, bind, glob_compile_commands, gets, lift, ret.
  rewrite <- Hglob.
  assert (Hall : fst (load_all (List.filter glob_match (map fst (files (fs w1)))) w1)
                 = fst (load_all (List.filter glob_match (map fst (files (fs w1)))) w2)).
  { apply load_all_same_files. intros p Hp. apply Hsame.
    apply filter_In in Hp. tauto. }
  destruct (load_all _ w1) as [[e1|a1] u1], (load_all _ w2) as [[e2|a2] u2];
    simpl in *; try congruence.
  injection Hall as ->. now destruct (fix_commands a2).
Qed.

Lemma create_compile_commands_run `{Externals} (w : World) :
  create_compile_commands w
  = match fst (merged_commands w) with
    | inl e => (inl e, w)
    | inr new_contents =>
        if String.eqb (database w) new_contents then (inr tt, w)
        else (inr tt, written "compile_commands.json" new_contents w)
    end.
Proof.
  unfold create_compile_commands, merged_commands, bind, glob_compile_commands, gets,
    lift, ret, database, path_exists, Dict.mem, read_text, write_text, modify, written.
  pose proof (load_all_run (List.filter glob_match (map fst (files (fs w)))) w) as Hw.
  destruct (load_all _ w) as [[e|all] w1]; simpl in *; subst w1; [reflexivity|].
  destruct (fix_commands all) as [e|fixed]; simpl; [reflexivity|].
  destruct (Dict.get "compile_commands.json" (files (fs w))) as [old|] eqn:Hold; simpl.
  - rewrite Hold. simpl. now destruct (String.eqb (universal_newlines old) _).
  - now destruct (json_dumps 2 false (PList fixed)).
Qed.

(** Writing the database changes neither what [glob] finds nor what the
    found files hold. *)
Lemma written_same_inputs (c : string) (w : World) :
  List.filter glob_match (map fst (files (fs (written "compile_commands.json" c w))))
  = List.filter glob_match (map fst (files (fs w)))
  /\ forall p, glob_match p = true ->
               Dict.get p (files (fs (written "compile_commands.json" c w)))
               = Dict.get p (files (fs w)).
Proof.
  simpl. split.
  - destruct (Dict.mem "compile_commands.json" (files (fs w))) eqn:Hm.
    + now rewrite DictFacts.keys_set_present.
    + rewrite DictFacts.keys_set_absent by exact Hm.
      rewrite List.filter_app. simpl. apply app_nil_r.
  - intros p Hp. apply DictFacts.get_set_ne. intros ->. discriminate Hp.
Qed.

(** C4. A run of [create_compile_commands] that returns leaves the world
    untouched when the serialized merge equals the text of the database as
    read, and otherwise writes the database once, with the serialized merge.
    Either way a second run over the result merges the same files to the
    same text, returns, and leaves every file with the contents it had.
    When the serialized text has no carriage return (the text of
    [json.dumps] never has one), a database that already holds it is not
    rewritten, and the second run changes nothing at all: no write. *)
Theorem create_compile_commands_idempotent `{Externals} (w w' : World) :
  create_compile_commands w = (inr tt, w') ->
  exists new_contents,
    fst (merged_commands w) = inr new_contents
    /\ (database w = new_contents -> w' = w)
    /\ (database w <> new_contents ->
        w' = written "compile_commands.json" new_contents w
        /\ log w' = log w ++ [EWrite "compile_commands.json" new_contents])
    /\ fst (merged_commands w') = inr new_contents
    /\ fst (create_compile_commands w') = inr tt
    /\ files (fs (snd (create_compile_commands w'))) = files (fs w')
    /\ (universal_newlines new_contents = new_contents ->
        (Dict.get "compile_commands.json" (files (fs w)) = Some new_contents -> w' = w)
        /\ database w' = new_contents
        /\ create_compile_commands w' = (inr tt, w')).
Proof.
  rewrite create_compile_commands_run.
  destruct (fst (merged_commands w)) as [e|new_contents] eqn:Hnew; [discriminate|].
  intros Hrun. exists new_contents. split; [reflexivity|].
  destruct (String.eqb_spec (database w) new_contents) as [Heq|Hne].
  - injection Hrun as <-.
    assert (Hagain : create_compile_commands w = (inr tt, w)).
    { rewrite create_compile_commands_run, Hnew.
      apply String.eqb_eq in Heq. now rewrite Heq. }
    split; [reflexivity|]. split; [contradiction|]. split; [exact Hnew|].
    rewrite Hagain. split; [reflexivity|]. split; [reflexivity|].
    intros _. auto.
  - injection Hrun as <-.
    destruct (written_same_inputs new_contents w) as [Hglob Hsame].
    assert (Hdb : database (written "compile_commands.json" new_contents w)
                  = universal_newlines new_contents).
    { unfold database. cbn [written emit set_fs fs files].
      now rewrite DictFacts.get_set_eq. }
    assert (Hagain : fst (merged_commands (written "compile_commands.json" new_contents w))
                     = inr new_contents).
    { rewrite <- Hnew. now apply merged_commands_same_inputs. }
    split; [contradiction|]. split; [intros _; split; reflexivity|].
    split; [exact Hagain|].
    rewrite create_compile_commands_run, Hagain, Hdb.
    split; [now destruct (String.eqb _ new_contents)|]. split.
    + destruct (String.eqb _ new_contents); [reflexivity|].
      cbn [snd written emit set_fs fs files].
      apply DictFacts.set_same, DictFacts.get_set_eq.
    + intros Hlf. rewrite Hlf, String.eqb_refl.
      split; [|split; reflexivity].
      intros Hdisk. exfalso. apply Hne. unfold database. now rewrite Hdisk.
Qed.

Lemma create_compile_commands_idempotent_witness :
  exists w',
    @create_compile_commands sample world_no_cached_args = (inr tt, w')
    /\ @create_compile_commands sample w' = (inr tt, w').
Proof.
  eexists. split; [vm_compute; reflexivity|].
  destruct (@create_compile_commands_idempotent sample world_no_cached_args _
              ltac:(vm_compute; reflexivity))
    as (new_contents & Hnew & _ & _ & _ & _ & _ & Hagain).
  vm_compute in Hnew. injection Hnew as <-.
  apply Hagain. vm_compute. reflexivity.
Defined.

(** A database with the right text but CR LF line endings reads equal and is
    left as it is. *)
Example create_compile_commands_keeps_crlf_database :
  @create_compile_commands sample_two_lines world_crlf_database
  = (inr tt, world_crlf_database).
Proof. vm_compute. reflexivity. Qed.

End Merger.

(** ** The normalization pass of [create_compile_commands] *)

Module NormalizePass.
Import PyStr Vocabulary.

(** C5. The normalization pass of [create_compile_commands], when it
    returns, gives back the entries one for one and in order: an entry whose
    command begins with the token gcc and a space comes out with that token
    replaced by g++ and the rest of the command as it was, all other fields
    and the order of the fields kept; an entry whose command begins
    otherwise comes out as it went in. What the pass returns for the
    entries of the discovered files is what [create_compile_commands]
    serializes, compares with the database and writes. *)
Theorem fix_commands_rewrite_leading_gcc `{Externals} (w : World)
        (all_commands fixed : list pyval) :
  fix_commands all_commands = inr fixed ->
  Forall2 (fun command command' =>
             exists d d' c,
               command = PDict d /\ command' = PDict d'
               /\ Dict.get "command" d = Some (PStr c)
               /\ (forall rest, c = "gcc " +:+ rest ->
                     Dict.get "command" d' = Some (PStr ("g++ " +:+ rest))
                     /\ map fst d' = map fst d
                     /\ forall k, k <> "command" -> Dict.get k d' = Dict.get k d)
               /\ (startswith "gcc " c = false -> d' = d))
          all_commands fixed
  /\ (fst (load_all (List.filter glob_match (map fst (files (fs w)))) w) = inr all_commands ->
      create_compile_commands w
      = if String.eqb (database w) (json_dumps 2 false (PList fixed))
        then (inr tt, w)
        else (inr tt, written "compile_commands.json" (json_dumps 2 false (PList fixed)) w)).
Proof.
  intros Hfix. split.
  - apply Normalize.fix_commands_each in Hfix.
    induction Hfix as [|command command' rest rest' Hc _ IH]; constructor; [|exact IH].
    destruct (Normalize.fix_command_returns _ _ Hc) as (d & c & -> & Hd).
    destruct (Normalize.fix_command_leading_gcc d c Hd) as [Hgcc Hother].
    rewrite (Normalize.fix_command_dict d c Hd) in Hc. injection Hc as <-.
    exists d, (Dict.set "command" (PStr (command_after c)) d), c.
    split; [reflexivity|]. split; [reflexivity|]. split; [exact Hd|]. split.
    + intros rest0 Hrest0. destruct (Hgcc rest0 Hrest0) as (d' & Hd' & Hprops).
      rewrite (Normalize.fix_command_dict d c Hd) in Hd'. injection Hd' as <-.
      exact Hprops.
    + intros Hno. specialize (Hother Hno).
      rewrite (Normalize.fix_command_dict d c Hd) in Hother. now injection Hother.
  - intros Hload. rewrite Merger.create_compile_commands_run.
    assert (Hnew : fst (merged_commands w) = inr (json_dumps 2 false (PList fixed))).
    { unfold merged_commands, bind, glob_compile_commands, gets, lift, ret.
      destruct (load_all _ w) as [[e|all] w1]; simpl in *; [discriminate|].
      injection Hload as ->. now rewrite Hfix. }
    now rewrite Hnew.
Qed.

Lemma fix_commands_rewrite_leading_gcc_witness :
  Forall2 (fun command command' =>
             exists d d' c,
               command = PDict d /\ command' = PDict d'
               /\ Dict.get "command" d = Some (PStr c)
               /\ (forall rest, c = "gcc " +:+ rest ->
                     Dict.get "command" d' = Some (PStr ("g++ " +:+ rest))
                     /\ map fst d' = map fst d
                     /\ forall k, k <> "command" -> Dict.get k d' = Dict.get k d)
               /\ (startswith "gcc " c = false -> d' = d))
          [PDict (entry "gcc -c a.cpp"); PDict (entry "clang -c a.c")]
          [PDict (entry "g++ -c a.cpp"); PDict (entry "clang -c a.c")]
  /\ @create_compile_commands sample world_no_cached_args
     = (inr tt,
        written "compile_commands.json"
                (sample_dumps (PList [PDict (entry "g++ -c a.cpp");
                                      PDict (entry "clang -c a.c")]))
                world_no_cached_args).
Proof.
  destruct (@fix_commands_rewrite_leading_gcc sample world_no_cached_args
              [PDict (entry "gcc -c a.cpp"); PDict (entry "clang -c a.c")]
              [PDict (entry "g++ -c a.cpp"); PDict (entry "clang -c a.c")]
              eq_refl) as [Hall Hwrite].
  split; [exact Hall|].
  exact (eq_trans (Hwrite ltac:(vm_compute; reflexivity)) ltac:(vm_compute; reflexivity)).
Defined.

(** C10. In the normalization pass only the four characters g, c, c, space
    at the start of a command trigger the rewrite: entries whose command is
    the bare gcc, a compiler given by path or gcc-9 come out as they went
    in. Where the four characters are there, the new command has g++ and a
    space as its first four characters, the characters of the old command
    from index 4 on after them, and the old length. The pass returns one
    entry for each entry it was given, in the same order. *)
Theorem fix_commands_exact_prefix (all_commands fixed : list pyval) :
  fix_commands all_commands = inr fixed ->
  Forall2 (fun command command' =>
             exists d c c',
               command = PDict d /\ Dict.get "command" d = Some (PStr c)
               /\ command' = PDict (Dict.set "command" (PStr c') d)
               /\ (slice_to 4 c = "gcc " ->
                     slice_to 4 c' = "g++ " /\ slice_from 4 c' = slice_from 4 c
                     /\ String.length c' = String.length c)
               /\ (slice_to 4 c <> "gcc " -> c' = c /\ command' = command)
               /\ (c = "gcc" \/ c = "gcc-9 -c a.c" \/ startswith "/usr/bin/gcc" c = true ->
                     command' = command))
          all_commands fixed.
Proof.
  intros Hfix. apply Normalize.fix_commands_each in Hfix.
  induction Hfix as [|command command' rest rest' Hc _ IH]; constructor; [|exact IH].
  destruct (Normalize.fix_command_returns _ _ Hc) as (d & c & -> & Hd).
  destruct (Normalize.fix_command_prefix d c Hd) as (c' & Hfixed & Hyes & Hno & Hcases).
  exists d, c, c'. split; [reflexivity|]. split; [exact Hd|].
  split; [congruence|]. split; [exact Hyes|]. split.
  - intros H4. destruct (Hno H4) as [Hsame Hkept]. split; [exact Hsame | congruence].
  - intros Hc3. specialize (Hcases Hc3). congruence.
Qed.

Lemma fix_commands_exact_prefix_witness :
  Forall2 (fun command command' =>
             exists d c c',
               command = PDict d /\ Dict.get "command" d = Some (PStr c)
               /\ command' = PDict (Dict.set "command" (PStr c') d)
               /\ (slice_to 4 c = "gcc " ->
                     slice_to 4 c' = "g++ " /\ slice_from 4 c' = slice_from 4 c
                     /\ String.length c' = String.length c)
               /\ (slice_to 4 c <> "gcc " -> c' = c /\ command' = command)
               /\ (c = "gcc" \/ c = "gcc-9 -c a.c" \/ startswith "/usr/bin/gcc" c = true ->
                     command' = command))
          [PDict (entry "gcc  -O2 a.c"); PDict (entry "gcc");
           PDict (entry "/usr/bin/gcc -c a.c"); PDict (entry "gcc-9 -c a.c")]
          [PDict (entry "g++  -O2 a.c"); PDict (entry "gcc");
           PDict (entry "/usr/bin/gcc -c a.c"); PDict (entry "gcc-9 -c a.c")].
Proof.
  apply (fix_commands_exact_prefix
           [PDict (entry "gcc  -O2 a.c"); PDict (entry "gcc");
            PDict (entry "/usr/bin/gcc -c a.c"); PDict (entry "gcc-9 -c a.c")]).
  reflexivity.
Defined.

End NormalizePass.

(** ** Saving the arguments at the end of [build_extension] *)

Module SaveArgs.
Import PyStr Vocabulary FrameFacts BuildFrame.

#[export] Instance invocation_frame : Frame invocation.
Proof.
  split; intros; unfold invocation; f_equal; try reflexivity.
  - apply (frame_spawn (obs := fun w => writes (log w))).
  - apply (frame_symlink (obs := fun w => writes (log w))).
Qed.
#[export] Instance invocation_frame_args : FrameArgs invocation.
Proof. intros a w. reflexivity. Qed.

Section Steps.
Context `{Externals} {A B : Type} (Q : exn + B -> World -> Prop).
Hypothesis raising : forall e w, Q (inl e) w.

(** A step that keeps [obs], in a world where [obs] is what it was in [w0]. *)
Lemma wp_bind_keeps {X} (obs : World -> X) (w0 : World) (c : M A) (k : A -> M B) :
  keeps obs c ->
  (forall a w, obs w = obs w0 -> wp (k a) Q w) ->
  forall w, obs w = obs w0 -> wp (bind c k) Q w.
Proof.
  intros Hc Hk w Hw. unfold wp, bind. specialize (Hc w).
  destruct (c w) as [[e|a] w1]; simpl in *; [apply raising|].
  apply Hk. congruence.
Qed.

(** Any step. *)
Lemma wp_bind_any (c : M A) (k : A -> M B) :
  (forall a w, wp (k a) Q w) -> forall w, wp (bind c k) Q w.
Proof.
  intros Hk w. unfold wp, bind.
  destruct (c w) as [[e|a] w1]; simpl; [apply raising | apply Hk].
Qed.

(** A read of the world. *)
Lemma wp_bind_gets (f : World -> A) (k : A -> M B) (w : World) :
  wp (k (f w)) Q w -> wp (bind (gets f) k) Q w.
Proof. intros Hk. exact Hk. Qed.

End Steps.

Ltac keeps_more :=
  repeat first [ keeps_step | apply restore_args_keeps_unrelated | exact _ ];
  try assumption.

(** C2, amended. When [build_extension] returns, the run was either driven by
    pip, and then the script wrote no file at all, or it was not, and then
    the last thing the script did was to write the arguments as they stand at
    the end, cached values included, to the cache file in the build
    directory. Whether [no_cached_args] is set plays no part. *)
Theorem build_extension_saves_args `{Externals}
        (self : CMakeBuild) (ext : CMakeExtension) (w : World) :
  fst (build_extension self ext w) = inr tt ->
  let w' := snd (build_extension self ext w) in
  let args_cache_file := osp.join (build_temp self) "setuppy_args.json" in
  let saved := json_dumps 4 true (vars_args (args w')) in
  if pip_driven (environ w)
  then writes (log w') = writes (log w)
  else (exists before, log w' = before ++ [EWrite args_cache_file saved])
       /\ Dict.get args_cache_file (files (fs w')) = Some saved.
Proof.
  set (Q := fun (r : exn + unit) (w' : World) =>
              r = inr tt ->
              if pip_driven (environ w)
              then writes (log w') = writes (log w)
              else (exists before,
                      log w' = before ++
                        [EWrite (osp.join (build_temp self) "setuppy_args.json")
                                (json_dumps 4 true (vars_args (args w')))])
                   /\ Dict.get (osp.join (build_temp self) "setuppy_args.json")
                               (files (fs w'))
                      = Some (json_dumps 4 true (vars_args (args w')))).
  assert (raising : forall e w1, Q (inl e) w1) by (intros e w1; discriminate).
  enough (Hall : forall w1, invocation w1 = invocation w ->
                            wp (build_extension self ext) Q w1)
    by exact (Hall w eq_refl).
  unfold build_extension, shlex_split_str. cbv zeta.
  do 15 (apply wp_bind_keeps; [exact raising | solve [keeps_more] | intros ?]).
  intros w1 Hw1. injection Hw1 as Henv Hlog.
  unfold is_pip. apply wp_bind_gets. cbv beta.
  fold (pip_driven (environ w1)). rewrite Henv.
  destruct (pip_driven (environ w)) eqn:Hpip.
  - unfold wp, Q, ret. cbn [fst snd]. intros _. exact Hlog.
  - clear Hlog Henv. revert w1.
    do 5 (apply wp_bind_any; [exact raising | intros ?]).
    intros w1. apply wp_bind_gets.
    unfold wp, write_text, modify, Q. cbn [fst snd].
    intros _. split; [eexists; reflexivity|].
    apply DictFacts.get_set_eq.
Qed.

End SaveArgs.

Module SaveArgsClaims.
Import PyStr Vocabulary SaveArgs.

(** C2 as stated fails: with [no_cached_args] set, a build that is not
    driven by pip still ends by writing the cache file. *)
Lemma no_cached_args_still_saves :
  ~ (forall (E : Externals) (self : CMakeBuild) (ext : CMakeExtension) (w : World)
            (v : pyval),
        fst (build_extension self ext w) = inr tt ->
        args w !! "no_cached_args" = Some v ->
        truthy v = true ->
        ~ wrote (osp.join (build_temp self) "setuppy_args.json")
                (log (snd (build_extension self ext w)))).
Proof.
  intros Hclaim.
  apply (Hclaim sample self0 ext0 world_no_cached_args (PBool true)).
  - vm_compute. reflexivity.
  - vm_compute. reflexivity.
  - reflexivity.
  - eexists. vm_compute.
    repeat first [ left; reflexivity | right ].
Qed.

Lemma build_extension_saves_args_witness :
  Dict.get "build/temp/setuppy_args.json"
           (files (fs (snd (@build_extension sample self0 ext0 world_no_cached_args))))
  = Some (sample_dumps
            (vars_args (args (snd (@build_extension sample self0 ext0
                                     world_no_cached_args))))).
Proof.
  pose proof (@build_extension_saves_args sample self0 ext0 world_no_cached_args
                ltac:(vm_compute; reflexivity)) as Hsaved.
  cbv zeta in Hsaved.
  change (pip_driven (environ world_no_cached_args)) with false in Hsaved.
  exact (proj2 Hsaved).
Defined.

(** Driven by pip, the same build writes nothing. *)
Example build_extension_pip_writes_nothing :
  fst (@build_extension sample self0 ext0 world_pip) = inr tt
  /\ writes (log (snd (@build_extension sample self0 ext0 world_pip))) = [].
Proof. split; vm_compute; reflexivity. Qed.

End SaveArgsClaims.

(** * Further properties *)

(** ** More on the reconfigure decision *)

Module ReconfigureMore.
Import PyStr CacheParser Reconfigure Vocabulary ReconfigureFacts.
#[local] Arguments slice_to : simpl never.
#[local] Arguments slice_from : simpl never.

(** X1. Without a generator state file [run_cmake] asks for a configure
    step whatever the arguments are, also when one of them has no equals
    sign, and leaves the world as it was. *)
Theorem run_cmake_first_configuration (self : CMakeBuild) (cmake_args : list string)
        (w : World) (f : pyval) :
  args w !! "force_cmake" = Some f ->
  Dict.get (osp.join (build_temp self) "CMakeCache.txt") (files (fs w)) = None ->
  run_cmake self cmake_args w = (inr true, w).
Proof.
  intros Hf Hfile. unfold run_cmake, bind, getattr, path_exists, gets, ret, Dict.mem.
  rewrite Hf. destruct (truthy f); [reflexivity|]. now rewrite Hfile.
Qed.

Lemma run_cmake_first_configuration_witness :
  run_cmake self0 ["-Wno-dev"; "-DA=1"] world_unconfigured
  = (inr true, world_unconfigured).
Proof.
  apply (run_cmake_first_configuration self0 ["-Wno-dev"; "-DA=1"] world_unconfigured
           (PBool false)).
  - vm_compute. reflexivity.
  - reflexivity.
Defined.




Lemma for_args_without_generator_flags (cache_contents cmake_args : list string) :
  for_args cache_contents cmake_args
  = for_args cache_contents
      (List.filter (fun arg => negb (is_generator_flag arg)) cmake_args).
Proof.
  unfold is_generator_flag.
  induction cmake_args as [|arg rest IH]; simpl; [reflexivity|].
  destruct (String.eqb (slice_to 2 arg) "-G") eqn:HG; simpl; [exact IH|].
  rewrite HG. destruct (split_once "="%char arg) as [[k v]|]; [|reflexivity].
  destruct (for_lines (slice_from 2 k) v cache_contents); [reflexivity | exact IH].
Qed.

(** X3. Generator flags play no part in the decision: [run_cmake] answers
    the same, in every world, when all arguments that start with -G are
    removed from (or added to) the request. *)
Theorem run_cmake_ignores_generator_flags (self : CMakeBuild)
        (cmake_args : list string) (w : World) :
  run_cmake self cmake_args w
  = run_cmake self (List.filter (fun arg => negb (is_generator_flag arg)) cmake_args) w.
Proof.
  unfold run_cmake, bind, lift.
  destruct (getattr "force_cmake" w) as [[e|f] w1]; [reflexivity|].
  destruct (truthy f); [reflexivity|].
  destruct (path_exists _ w1) as [[e|found] w2]; [reflexivity|].
  destruct found; [|reflexivity].
  destruct (open_readlines _ w2) as [[e|contents] w3]; [reflexivity|].
  now rewrite for_args_without_generator_flags.
Qed.

Lemma for_lines_parsed (k v : string) (cache_contents : list string) :
  for_lines k v cache_contents
  = existsb (fun kv => String.eqb (fst kv) k && negb (String.eqb (snd kv) v))
            (parsed_pairs cache_contents).
Proof.
  induction cache_contents as [|l rest IH]; simpl; [reflexivity|].
  destruct (cache_parser_match l) as [[K V]|]; simpl; [|exact IH].
  destruct (String.eqb K k && negb (String.eqb V v)); [reflexivity | exact IH].
Qed.

(** X4. For a state file and arguments of ASCII text, the decision depends
    on the state file only through the key and value of the lines that
    match the pattern: lines that do not match are skipped, and the type
    tag of a line plays no part. *)
Theorem for_args_depends_on_parsed_pairs (lines1 lines2 cmake_args : list string) :
  Forall ascii_text lines1 -> Forall ascii_text lines2 ->
  Forall ascii_text cmake_args ->
  parsed_pairs lines1 = parsed_pairs lines2 ->
  for_args lines1 cmake_args = for_args lines2 cmake_args.
Proof.
  intros _ _ _ Hsame. induction cmake_args as [|arg rest IH]; simpl; [reflexivity|].
  destruct (String.eqb (slice_to 2 arg) "-G"); [exact IH|].
  destruct (split_once "="%char arg) as [[k v]|]; [|reflexivity].
  rewrite !for_lines_parsed, Hsame, IH. reflexivity.
Qed.

Lemma for_args_depends_on_parsed_pairs_witness :
  for_args ["# a comment"; "A:STRING=1"; ""; "B:BOOL=ON"] ["-DA=1"; "-DB=OFF"]
  = for_args ["A=1"; "B:STRING=ON"] ["-DA=1"; "-DB=OFF"].
Proof.
  apply (for_args_depends_on_parsed_pairs
           ["# a comment"; "A:STRING=1"; ""; "B:BOOL=ON"] ["A=1"; "B:STRING=ON"]).
  - repeat (constructor; [reflexivity|]). constructor.
  - repeat (constructor; [reflexivity|]). constructor.
  - repeat (constructor; [reflexivity|]). constructor.
  - reflexivity.
Defined.

(** X5. When every argument is a generator flag or has an equals sign, the
    decision does not depend on the order of the arguments. *)
Theorem for_args_order_irrelevant (cache_contents args1 args2 : list string) :
  Forall comparable args1 ->
  Permutation args1 args2 ->
  for_args cache_contents args1 = for_args cache_contents args2.
Proof.
  intros Hcmp Hperm.
  assert (Hcmp2 : Forall comparable args2).
  { apply List.Forall_forall. intros a Ha.
    apply (proj1 (List.Forall_forall _ _) Hcmp).
    apply (Permutation_in a (Permutation_sym Hperm) Ha). }
  destruct (for_args_comparable cache_contents args1 Hcmp) as (b1 & Hb1 & Hiff1).
  destruct (for_args_comparable cache_contents args2 Hcmp2) as (b2 & Hb2 & Hiff2).
  rewrite Hb1, Hb2. f_equal.
  assert (Hsame : b1 = true <-> b2 = true).
  { rewrite Hiff1, Hiff2. split; intros (a & Ha & Hm); exists a; split; auto.
    - apply (Permutation_in a Hperm Ha).
    - apply (Permutation_in a (Permutation_sym Hperm) Ha). }
  destruct b1, b2; try reflexivity.
  - symmetry. now apply Hsame.
  - now apply Hsame.
Qed.

Lemma for_args_order_irrelevant_witness :
  for_args (readlines cache_B3) ["-DA=1"; "-GNinja"; "-DB=2"]
  = for_args (readlines cache_B3) ["-DB=2"; "-DA=1"; "-GNinja"].
Proof.
  apply (for_args_order_irrelevant (readlines cache_B3)
           ["-DA=1"; "-GNinja"; "-DB=2"] ["-DB=2"; "-DA=1"; "-GNinja"]).
  - constructor; [right; reflexivity|].
    constructor; [left; reflexivity|].
    constructor; [right; reflexivity | constructor].
  - apply Permutation_sym.
    apply (Permutation_cons_app ["-DA=1"; "-GNinja"] [] "-DB=2").
    apply Permutation_refl.
Defined.

End ReconfigureMore.

Module ParserMore.
Import PyStr CacheParser Reconfigure Vocabulary ReconfigureFacts.

(** X6. A line KEY:TYPE=VALUE or KEY=VALUE, with KEY and TYPE non-empty
    words and VALUE free of line feeds, matches with K = KEY and V = VALUE,
    with or without a line feed at its end; VALUE may hold equals signs and
    colons. *)
Theorem cache_parser_match_entry (KEY TYPE VALUE : string) :
  KEY <> EmptyString -> all_word KEY = true ->
  TYPE <> EmptyString -> all_word TYPE = true ->
  contains LF VALUE = false ->
  cache_parser_match (KEY +:+ String ":"%char TYPE +:+ String "="%char VALUE)
  = Some (KEY, VALUE)
  /\ cache_parser_match
       (KEY +:+ String ":"%char TYPE +:+ String "="%char (VALUE +:+ String LF EmptyString))
     = Some (KEY, VALUE)
  /\ cache_parser_match (KEY +:+ String "="%char VALUE) = Some (KEY, VALUE)
  /\ cache_parser_match (KEY +:+ String "="%char (VALUE +:+ String LF EmptyString))
     = Some (KEY, VALUE).
Proof.
  intros HK HKw HT HTw HV.
  repeat split; apply CacheParserFacts.cache_parser_match_iff; unfold cache_line.
  - exists (String ":"%char TYPE), EmptyString.
    rewrite CacheParserFacts.append_nil_r. repeat split; auto.
    right. exists TYPE. auto.
  - exists (String ":"%char TYPE), (String LF EmptyString). repeat split; auto.
    right. exists TYPE. auto.
  - exists EmptyString, EmptyString.
    rewrite CacheParserFacts.append_nil_r. repeat split; auto.
  - exists EmptyString, (String LF EmptyString). repeat split; auto.
Qed.

Lemma cache_parser_match_entry_witness :
  cache_parser_match "CMAKE_BUILD_TYPE:STRING=a=b:c" = Some ("CMAKE_BUILD_TYPE", "a=b:c").
Proof.
  exact (proj1 (cache_parser_match_entry "CMAKE_BUILD_TYPE" "STRING" "a=b:c"
                  ltac:(discriminate) eq_refl ltac:(discriminate) eq_refl eq_refl)).
Defined.

(** X7. Of the lines of ASCII text, one that is empty or starts with a
    character that is not a word character (a comment, a blank line, an
    indented line) does not match, nor does one whose first word is
    followed by anything but a colon or an equals sign. *)
Theorem cache_parser_match_rejects (l : string) :
  is_ascii l = true ->
  (l = EmptyString
   \/ (exists c r, l = String c r /\ is_word c = false)
   \/ (exists w c r, l = w +:+ String c r /\ all_word w = true /\ is_word c = false
                     /\ c <> "="%char /\ c <> ":"%char)) ->
  cache_parser_match l = None.
Proof.
  intros _ [->|[(c & r & -> & Hc)|(w & c & r & -> & Hw & Hc & Heq & Hcolon)]].
  - reflexivity.
  - unfold cache_parser_match. simpl. now rewrite Hc.
  - unfold cache_parser_match.
    rewrite CacheParserFacts.span_word_app by (auto; exact Hc).
    destruct w; [reflexivity|].
    destruct (Ascii.eqb_spec c "="%char); [contradiction|].
    destruct (Ascii.eqb_spec c ":"%char); [contradiction|]. reflexivity.
Qed.

Lemma cache_parser_match_rejects_witness :
  cache_parser_match "# This is the CMakeCache file." = None
  /\ cache_parser_match "CMAKE_CXX_FLAGS-ADVANCED:INTERNAL=1" = None.
Proof.
  split.
  - apply cache_parser_match_rejects; [reflexivity|]. right. left.
    exists "#"%char, " This is the CMakeCache file.". split; reflexivity.
  - apply cache_parser_match_rejects; [reflexivity|]. right. right.
    exists "CMAKE_CXX_FLAGS", "-"%char, "ADVANCED:INTERNAL=1".
    repeat split; try reflexivity; discriminate.
Defined.

(** X8. The two characters in front of the key are dropped unseen, so an
    argument with at most two characters before its first equals sign is
    compared under the empty key, which no line has: the inner loop finds
    no differing line for it, and the outer loop goes on to the next
    argument. *)
Theorem short_key_never_differs (cache_contents : list string) (arg k0 v : string)
        (rest : list string) :
  split_once "="%char arg = Some (k0, v) ->
  (String.length k0 <= 2)%nat ->
  for_lines (slice_from 2 k0) v cache_contents = false
  /\ for_args cache_contents (arg :: rest) = for_args cache_contents rest.
Proof.
  intros Hsp Hlen.
  assert (Hk : slice_from 2 k0 = EmptyString).
  { destruct k0 as [|a [|b [|c k0]]]; simpl in *; try reflexivity. lia. }
  assert (Hno : for_lines (slice_from 2 k0) v cache_contents = false).
  { rewrite Hk. destruct (for_lines EmptyString v cache_contents) eqn:Hf; [|reflexivity].
    apply for_lines_iff in Hf as (l & V & _ & (T & nl & _ & HK & _) & _).
    now contradiction HK. }
  split; [exact Hno|].
  cbn [for_args]. destruct (String.eqb (slice_to 2 arg) "-G"); [reflexivity|].
  now rewrite Hsp, Hno.
Qed.

Lemma short_key_never_differs_witness :
  for_lines (slice_from 2 "-D") "3" ["D:STRING=1"; "=2"] = false
  /\ for_args ["D:STRING=1"; "=2"] ["-D=3"; "-DD=2"]
     = for_args ["D:STRING=1"; "=2"] ["-DD=2"].
Proof.
  apply (short_key_never_differs ["D:STRING=1"; "=2"] "-D=3" "-D" "3" ["-DD=2"]).
  - reflexivity.
  - simpl. lia.
Defined.

End ParserMore.

(** ** More on the argument cache *)

Module ArgumentCacheMore.
Import PyStr Vocabulary FrameFacts BuildFrame ArgumentCache.

Lemma get_none_not_key {A} (k : string) (d : list (string * A)) :
  Dict.get k d = None <-> ~ In k (map fst d).
Proof.
  induction d as [|[k' v] d IH]; simpl; [tauto|].
  destruct (String.eqb_spec k' k) as [->|Hne].
  - split; [discriminate | intros Hno; exfalso; apply Hno; now left].
  - rewrite IH. split; [intros Hno [?|?]; [contradiction | now apply Hno] | tauto].
Qed.

Lemma in_keys {A} (k : string) (v : A) (d : list (string * A)) :
  In (k, v) d -> In k (map fst d).
Proof. intros Hin. apply (in_map fst) in Hin. exact Hin. Qed.

Lemma get_some_elem {A} (k : string) (v : A) (d : list (string * A)) :
  NoDup (map fst d) -> Dict.get k d = Some v <-> In (k, v) d.
Proof.
  induction d as [|[k' v'] d IH]; simpl; intros Hnd.
  - split; [discriminate | tauto].
  - inversion Hnd as [|? ? Hk' Hnd']; subst.
    destruct (String.eqb_spec k' k) as [->|Hne].
    + split.
      * intros [= ->]. now left.
      * intros [[= ->]|Hin]; [reflexivity|].
        exfalso. apply Hk'. apply list_elem_of_In. now apply in_keys in Hin.
    + rewrite (IH Hnd'). split; [now right|].
      intros [[= -> _]|Hin]; [contradiction | exact Hin].
Qed.

(** The restore loop, key by key, for items with ordinary names. *)
Lemma restore_args_lookup (items : list (string * pyval)) (w : World) (k : string) :
  NoDup (map fst items) ->
  Forall (fun kv => is_descriptor (fst kv) = false) items ->
  args (snd (restore_args items w)) !! k
  = if bool_decide (k ∈ ARG_CACHE_BLACKLIST) then args w !! k
    else match Dict.get k items with
         | Some v => Some v
         | None => args w !! k
         end.
Proof.
  intros Hnd Hitems. revert w Hnd.
  induction Hitems as [|[k' v] rest Hk'ord _ IH]; intros w Hnd; simpl.
  - now destruct (bool_decide _).
  - inversion Hnd as [|? ? Hk' Hnd']; subst. clear Hnd. rename Hnd' into Hnd.
    cbn [fst] in Hk'ord. unfold bind.
    destruct (bool_decide_reflect (k' ∈ ARG_CACHE_BLACKLIST)) as [Hbl|Hbl]; simpl.
    + rewrite (IH _ Hnd).
      destruct (bool_decide_reflect (k ∈ ARG_CACHE_BLACKLIST)) as [Hkb|Hkb];
        [reflexivity|].
      destruct (String.eqb_spec k' k) as [->|Hne]; [contradiction | reflexivity].
    + rewrite (setattr_ordinary k' v w Hk'ord). rewrite (IH _ Hnd). simpl.
      destruct (bool_decide_reflect (k ∈ ARG_CACHE_BLACKLIST)) as [Hkb|Hkb].
      * apply lookup_insert_ne. intros ->. contradiction.
      * destruct (String.eqb_spec k' k) as [->|Hne].
        -- assert (Hnone : Dict.get k rest = None).
           { apply get_none_not_key. intros Hin. apply Hk'.
             now apply list_elem_of_In. }
           rewrite Hnone. apply lookup_insert_eq.
        -- destruct (Dict.get k rest); [reflexivity|]. now apply lookup_insert_ne.
Qed.

Lemma ordinary_items_settable (items : list (string * pyval)) :
  Forall (fun kv => is_descriptor (fst kv) = false) items ->
  Forall (fun kv => unsettable kv = false) items.
Proof.
  intros Hitems. eapply Forall_impl; [exact Hitems|].
  intros [k v]. unfold is_descriptor, unsettable. cbn [fst snd].
  destruct (String.eqb k "__dict__"); [discriminate|].
  destruct (String.eqb k "__class__"); [discriminate|].
  destruct (String.eqb k "__weakref__"); [discriminate | reflexivity].
Qed.

Lemma load_cached_args_eligible `{Externals} (f : string) (w : World) (v : pyval)
      (text : string) (d : list (string * pyval)) :
  pip_driven (environ w) = false ->
  args w !! "no_cached_args" = Some v -> truthy v = false ->
  Dict.get f (files (fs w)) = Some text ->
  json_loads (universal_newlines text) = Some (PDict d) ->
  load_cached_args f w = restore_args d w.
Proof.
  intros Hpip Hv Ht Hfile Hj.
  unfold load_cached_args, bind. rewrite cache_eligible_run, Hpip, Hv, Ht.
  unfold Dict.mem. rewrite Hfile, load_run, Hfile, Hj. reflexivity.
Qed.

(** X9. When the cache is loaded (the run is not driven by pip,
    [no_cached_args] is unset, the file is there and holds an object with
    distinct keys, none of them one of the three names that [setattr] keeps
    out of the dictionary), the load returns and every key of the cache that
    is not on the blacklist takes the cached value, whatever the command
    line gave; a key the cache does not have and a key of the blacklist keep
    the current value. *)
Theorem load_cached_args_merges `{Externals} (f : string) (w : World) (v : pyval)
        (text : string) (d : list (string * pyval)) (k : string) :
  pip_driven (environ w) = false ->
  args w !! "no_cached_args" = Some v -> truthy v = false ->
  Dict.get f (files (fs w)) = Some text ->
  json_loads (universal_newlines text) = Some (PDict d) ->
  NoDup (map fst d) ->
  Forall (fun kv => is_descriptor (fst kv) = false) d ->
  fst (load_cached_args f w) = inr tt
  /\ args (snd (load_cached_args f w)) !! k
     = if bool_decide (k ∈ ARG_CACHE_BLACKLIST) then args w !! k
       else match Dict.get k d with
            | Some x => Some x
            | None => args w !! k
            end.
Proof.
  intros Hpip Hv Ht Hfile Hj Hnd Hord.
  rewrite (load_cached_args_eligible f w v text d Hpip Hv Ht Hfile Hj).
  split; [|now apply restore_args_lookup].
  now apply restore_args_settable, ordinary_items_settable.
Qed.

Lemma load_cached_args_merges_witness :
  args (snd (@load_cached_args sample "build/temp/setuppy_args.json" world_cached_forced))
    !! "headless"
  = Some (PBool true).
Proof.
  refine (proj2 (@load_cached_args_merges sample "build/temp/setuppy_args.json"
                   world_cached_forced (PBool false) (sample_dumps cached_forced)
                   [("force_cmake", PBool true); ("headless", PBool true)] "headless"
                   _ _ _ _ _ _ _)).
  - reflexivity.
  - vm_compute. reflexivity.
  - reflexivity.
  - reflexivity.
  - vm_compute. reflexivity.
  - apply NoDup_cons_2; [|apply NoDup_cons_2; [|apply NoDup_nil_2]].
    + intros Hin. apply list_elem_of_In in Hin. destruct Hin as [Heq|[]].
      discriminate Heq.
    + intros Hin. apply list_elem_of_In in Hin. destruct Hin.
  - constructor; [reflexivity|]. constructor; [reflexivity | constructor].
Defined.

End ArgumentCacheMore.

Module CachePrecedence.
Import PyStr Vocabulary FrameFacts BuildFrame ArgumentCache ArgumentCacheMore.

(** X10. The cache is laid over [args] after the environment overrides ran,
    so a key that a loaded cache holds (the blacklist apart) ends with the
    cached value even when HEADLESS or CMAKE_ARGS set it a moment before;
    the cache is an object with distinct keys, none of them one of the three
    names that [setattr] keeps out of the dictionary. *)
Theorem cache_overrides_environment `{Externals} (f : string) (w : World) (v : pyval)
        (text : string) (d : list (string * pyval)) (k : string) (x : pyval) :
  pip_driven (environ w) = false ->
  args w !! "no_cached_args" = Some v -> truthy v = false ->
  Dict.get f (files (fs w)) = Some text ->
  json_loads (universal_newlines text) = Some (PDict d) ->
  NoDup (map fst d) ->
  Forall (fun kv => is_descriptor (fst kv) = false) d ->
  k ∉ ARG_CACHE_BLACKLIST ->
  Dict.get k d = Some x ->
  args (snd ((environment_overrides ;;; load_cached_args f) w)) !! k = Some x.
Proof.
  intros Hpip Hv Ht Hfile Hj Hnd Hord Hk Hx.
  unfold bind. rewrite EnvironmentOverrides.environment_overrides_run.
  set (w1 := set_args _ w).
  assert (Hv1 : args w1 !! "no_cached_args" = Some v).
  { subst w1. simpl.
    destruct (String.eqb _ "true"); destruct (environ w !! "CMAKE_ARGS"); simpl;
      repeat (rewrite lookup_insert_ne by discriminate); exact Hv. }
  rewrite (load_cached_args_eligible f w1 v text d Hpip Hv1 Ht Hfile Hj).
  rewrite (restore_args_lookup d w1 k Hnd Hord).
  rewrite bool_decide_eq_false_2 by exact Hk. now rewrite Hx.
Qed.

Lemma cache_overrides_environment_witness :
  args (snd ((environment_overrides ;;;
              @load_cached_args sample_with_saved "build/temp/setuppy_args.json")
               world_after_save)) !! "cmake_args"
  = Some (PStr "-DA=1").
Proof.
  apply (@cache_overrides_environment sample_with_saved "build/temp/setuppy_args.json"
           world_after_save (PBool false)
           (sample_dumps (PDict (map_to_list saved_args)))
           (map_to_list saved_args) "cmake_args" (PStr "-DA=1")).
  - reflexivity.
  - vm_compute. reflexivity.
  - reflexivity.
  - reflexivity.
  - vm_compute. reflexivity.
  - apply (NoDup_fst_map_to_list saved_args).
  - apply Forall_forall. intros kv Hkv. vm_compute in Hkv.
    repeat (apply elem_of_cons in Hkv as [->|Hkv]; [reflexivity|]).
    now apply elem_of_nil in Hkv.
  - unfold ARG_CACHE_BLACKLIST. intros Hin. apply elem_of_singleton in Hin.
    discriminate Hin.
  - vm_compute. reflexivity.
Defined.

(** X11. Save, then load: when the cache file holds what [json.dump] wrote
    for the arguments [a], none of whose names is one of the three that
    [setattr] keeps out of the dictionary, and [json.load] reads that text
    back as an object with the pairs of [a] in some order, a later run that
    loads the cache ends with every key of [a] at its saved value, the
    blacklist apart; the keys of the blacklist, and keys [a] does not have,
    keep the value of the later run. *)
Theorem saved_args_are_restored `{Externals} (f : string) (w : World) (v : pyval)
        (a : gmap string pyval) (d : list (string * pyval)) (k : string) :
  pip_driven (environ w) = false ->
  args w !! "no_cached_args" = Some v -> truthy v = false ->
  Dict.get f (files (fs w)) = Some (json_dumps 4 true (vars_args a)) ->
  json_loads (universal_newlines (json_dumps 4 true (vars_args a))) = Some (PDict d) ->
  d ≡ₚ map_to_list a ->
  (forall name, is_descriptor name = true -> a !! name = None) ->
  args (snd (load_cached_args f w)) !! k
  = if bool_decide (k ∈ ARG_CACHE_BLACKLIST) then args w !! k
    else match a !! k with
         | Some x => Some x
         | None => args w !! k
         end.
Proof.
  intros Hpip Hv Ht Hfile Hj Hperm Hnames.
  assert (Hnd : NoDup (map fst d)).
  { change (NoDup (fst <$> d)). rewrite Hperm. apply NoDup_fst_map_to_list. }
  assert (Hord : Forall (fun kv => is_descriptor (fst kv) = false) d).
  { apply Forall_forall. intros [name x] Hin. cbn [fst].
    rewrite Hperm in Hin. apply elem_of_map_to_list in Hin.
    destruct (is_descriptor name) eqn:Hname; [|reflexivity].
    rewrite (Hnames name Hname) in Hin. discriminate. }
  rewrite (load_cached_args_eligible f w v _ d Hpip Hv Ht Hfile Hj).
  rewrite (restore_args_lookup d w k Hnd Hord).
  destruct (bool_decide (k ∈ ARG_CACHE_BLACKLIST)); [reflexivity|].
  assert (Hsame : Dict.get k d = a !! k).
  { destruct (a !! k) as [x|] eqn:Ha.
    - apply (get_some_elem k x d Hnd). apply list_elem_of_In.
      rewrite Hperm. now apply elem_of_map_to_list.
    - destruct (Dict.get k d) as [x|] eqn:Hd; [|reflexivity].
      apply (get_some_elem k x d Hnd) in Hd. apply list_elem_of_In in Hd.
      rewrite Hperm in Hd. apply elem_of_map_to_list in Hd. congruence. }
  now rewrite Hsame.
Qed.

Lemma saved_args_are_restored_witness :
  args (snd (@load_cached_args sample_with_saved "build/temp/setuppy_args.json"
               world_after_save)) !! "headless"
  = Some (PBool true).
Proof.
  pose proof (@saved_args_are_restored sample_with_saved "build/temp/setuppy_args.json"
                world_after_save (PBool false) saved_args (map_to_list saved_args)
                "headless") as Hrestored.
  rewrite Hrestored.
  - vm_compute. reflexivity.
  - reflexivity.
  - vm_compute. reflexivity.
  - reflexivity.
  - reflexivity.
  - vm_compute. reflexivity.
  - reflexivity.
  - intros name Hname. unfold is_descriptor in Hname.
    apply orb_prop in Hname as [Hname|Hname];
      [apply orb_prop in Hname as [Hname|Hname]|];
      apply String.eqb_eq in Hname; subst name; reflexivity.
Defined.

End CachePrecedence.

Module SaveOnlyOnSuccess.
Import PyStr Vocabulary FrameFacts BuildFrame SaveArgs.

#[export] Instance writes_to_frame (path : string) :
  Frame (fun w => writes_to path (log w)).
Proof.
  split; intros; simpl; try reflexivity;
    unfold writes_to; rewrite List.filter_app; simpl; apply app_nil_r.
Qed.
#[export] Instance writes_to_frame_args (path : string) :
  FrameArgs (fun w => writes_to path (log w)).
Proof. intros a w. reflexivity. Qed.

Lemma append_length (a b : string) :
  String.length (a +:+ b) = (String.length a + String.length b)%nat.
Proof. induction a as [|c a IH]; simpl; [reflexivity | now rewrite IH]. Qed.

(** The cache file is never the compile-command database. *)
Lemma cache_file_is_not_database (build_temp : string) :
  osp.join build_temp "setuppy_args.json" <> "compile_commands.json".
Proof.
  unfold osp.join.
  change (PyStr.startswith (String osp.SEP EmptyString) "setuppy_args.json") with false.
  cbv iota.
  destruct (String.eqb build_temp EmptyString || PyStr.endswith_char osp.SEP build_temp);
    intros Heq; pose proof (f_equal String.length Heq) as Hlen;
    rewrite append_length in Hlen; simpl in Hlen;
    destruct build_temp as [|c1 [|c2 [|c3 [|c4 [|c5 b]]]]]; simpl in Hlen;
    try lia; discriminate Heq.
Qed.

Lemma keeps_writes_to_create_compile_commands `{Externals} (path : string) :
  path <> "compile_commands.json" ->
  keeps (fun w => writes_to path (log w)) create_compile_commands.
Proof.
  intros Hne w. rewrite Merger.create_compile_commands_run.
  destruct (fst (merged_commands w)) as [e|new_contents]; [reflexivity|].
  destruct (String.eqb (database w) new_contents); [reflexivity|].
  unfold written, emit. cbn [snd log]. unfold writes_to.
  rewrite List.filter_app. cbn [List.filter is_write_to].
  destruct (String.eqb_spec "compile_commands.json" path) as [Heq|_];
    [congruence | apply app_nil_r].
Qed.

Section Steps.
Context `{Externals} {A B X : Type} (obs : World -> X) (w0 : World)
        (Q : exn + B -> World -> Prop).
Hypothesis raising : forall e w, obs w = obs w0 -> Q (inl e) w.

(** A step that keeps [obs], where raising is fine as long as [obs] is
    kept. *)
Lemma wp_bind_inv (c : M A) (k : A -> M B) :
  keeps obs c ->
  (forall a w, obs w = obs w0 -> wp (k a) Q w) ->
  forall w, obs w = obs w0 -> wp (bind c k) Q w.
Proof.
  intros Hc Hk w Hw. unfold wp, bind. specialize (Hc w).
  destruct (c w) as [[e|a] w1]; simpl in *.
  - apply raising. congruence.
  - apply Hk. congruence.
Qed.

End Steps.

(** X12. The arguments are saved only by a build that went through: when
    [build_extension] raises, at whatever step, the script has not written
    the cache file. *)
Theorem build_extension_failure_keeps_cache `{Externals}
        (self : CMakeBuild) (ext : CMakeExtension) (w : World) (e : exn) :
  fst (build_extension self ext w) = inl e ->
  writes_to (osp.join (build_temp self) "setuppy_args.json")
            (log (snd (build_extension self ext w)))
  = writes_to (osp.join (build_temp self) "setuppy_args.json") (log w).
Proof.
  set (f := osp.join (build_temp self) "setuppy_args.json").
  set (obs := fun w : World => writes_to f (log w)).
  set (Q := fun (r : exn + unit) (w' : World) =>
              (exists e, r = inl e) -> obs w' = obs w).
  intros Hraise.
  enough (Hall : forall w1, obs w1 = obs w -> wp (build_extension self ext) Q w1).
  { apply (Hall w eq_refl). eauto. }
  assert (raising : forall e w1, obs w1 = obs w -> Q (inl e) w1)
    by (intros e1 w1 Hw1 _; exact Hw1).
  assert (Hccc : keeps obs create_compile_commands)
    by (apply keeps_writes_to_create_compile_commands, cache_file_is_not_database).
  clear Hraise.
  unfold build_extension, shlex_split_str. cbv zeta. fold f.
  do 15 (apply wp_bind_inv; [exact raising | solve [keeps_more] | intros ?]).
  apply wp_bind_inv; [exact raising | solve [keeps_more] | intros pip].
  destruct pip.
  - intros w1 Hw1. unfold wp, ret, Q. cbn [fst snd].
    intros [e1 He1]. discriminate He1.
  - do 4 (apply wp_bind_inv; [exact raising | solve [keeps_more] | intros ?]).
    apply wp_bind_inv; [exact raising | exact Hccc | intros ?].
    intros w1 Hw1. apply wp_bind_gets.
    unfold wp, write_text, modify, Q. cbn [fst snd].
    intros [e1 He1]. discriminate He1.
Qed.

Lemma build_extension_failure_keeps_cache_witness :
  writes_to "build/temp/setuppy_args.json"
            (log (snd (@build_extension sample_build_fails self0 ext0
                         world_no_cached_args)))
  = [].
Proof.
  exact (@build_extension_failure_keeps_cache sample_build_fails self0 ext0
           world_no_cached_args (CalledProcessError 2)
           ltac:(vm_compute; reflexivity)).
Defined.

End SaveOnlyOnSuccess.

(** ** More on the compile-command merger *)

Module MergerMore.
Import PyStr Vocabulary Merger.

Lemma command_after_again (c : string) :
  command_after (command_after c) = command_after c.
Proof.
  unfold command_after at 2 3. destruct (startswith "gcc " c) eqn:Hs.
  - unfold command_after.
    now change (startswith "gcc " ("g++ " +:+ slice_from 4 c)) with false.
  - unfold command_after. now rewrite Hs.
Qed.

Lemma fix_command_again (c c' : pyval) :
  fix_command c = inr c' -> fix_command c' = inr c'.
Proof.
  destruct c as [| | | | |d]; try discriminate.
  destruct (Dict.get "command" d) as [[| | |s| |]|] eqn:Hc;
    try (simpl; rewrite Hc; discriminate).
  rewrite (Normalize.fix_command_dict d s Hc). intros [= <-].
  rewrite (Normalize.fix_command_dict _ (command_after s))
    by apply DictFacts.get_set_eq.
  rewrite command_after_again.
  rewrite (DictFacts.set_same "command" (PStr (command_after s))
             (Dict.set "command" (PStr (command_after s)) d))
    by apply DictFacts.get_set_eq.
  reflexivity.
Qed.

(** X13. Normalizing twice is normalizing once: the list that
    [fix_commands] returns is left as it is by a second pass. *)
Theorem fix_commands_idempotent (all_commands fixed : list pyval) :
  fix_commands all_commands = inr fixed -> fix_commands fixed = inr fixed.
Proof.
  revert fixed. induction all_commands as [|c rest IH]; intros fixed; simpl.
  - now intros [= <-].
  - destruct (fix_command c) as [e|c'] eqn:Hc; [discriminate|].
    destruct (fix_commands rest) as [e|rest'] eqn:Hrest; [discriminate|].
    intros [= <-]. simpl. now rewrite (fix_command_again _ _ Hc), (IH _ eq_refl).
Qed.

Lemma fix_commands_idempotent_witness :
  fix_commands [PDict (entry "g++ -c a.cpp"); PDict (entry "clang -c a.c")]
  = inr [PDict (entry "g++ -c a.cpp"); PDict (entry "clang -c a.c")].
Proof.
  apply (fix_commands_idempotent
           [PDict (entry "gcc -c a.cpp"); PDict (entry "clang -c a.c")]).
  reflexivity.
Defined.

Lemma fix_command_succeeds_iff (c : pyval) :
  (exists c', fix_command c = inr c') <-> has_command c.
Proof.
  unfold has_command. split.
  - intros [c' Hc]. destruct c as [| | | | |d]; try discriminate.
    unfold fix_command in Hc.
    destruct (Dict.get "command" d) as [[| | |s| |]|] eqn:Hd; try discriminate.
    exists d, s. auto.
  - intros (d & s & -> & Hd). rewrite (Normalize.fix_command_dict d s Hd). eauto.
Qed.

Lemma fix_commands_length (all_commands fixed : list pyval) :
  fix_commands all_commands = inr fixed ->
  List.length fixed = List.length all_commands.
Proof.
  revert fixed. induction all_commands as [|c rest IH]; intros fixed; simpl.
  - now intros [= <-].
  - destruct (fix_command c); [discriminate|].
    destruct (fix_commands rest) as [|rest']; [discriminate|].
    intros [= <-]. simpl. now rewrite (IH rest' eq_refl).
Qed.

(** X14. The normalization pass goes through exactly when every entry is an
    object with a string under the key command; it then returns as many
    entries as it was given. An entry that is not an object, has no
    command, or has a command that is not a string makes the pass raise. *)
Theorem fix_commands_succeeds_iff (all_commands : list pyval) :
  (exists fixed, fix_commands all_commands = inr fixed
                 /\ List.length fixed = List.length all_commands)
  <-> Forall has_command all_commands.
Proof.
  induction all_commands as [|c rest IH]; simpl.
  - split; [constructor | intros _; exists []; auto].
  - split.
    + intros (fixed & Hfix & _).
      destruct (fix_command c) as [e|c'] eqn:Hc; [discriminate|].
      destruct (fix_commands rest) as [e|rest'] eqn:Hrest; [discriminate|].
      constructor.
      * apply fix_command_succeeds_iff. eauto.
      * apply IH. exists rest'. split; [reflexivity|].
        now apply fix_commands_length.
    + intros Hall. inversion Hall as [|? ? Hc Hrest]; subst.
      apply fix_command_succeeds_iff in Hc as [c' Hc].
      apply IH in Hrest as (rest' & Hrest & Hlen).
      exists (c' :: rest'). rewrite Hc, Hrest. simpl. auto.
Qed.

(** X15. [create_compile_commands] writes the database in one go at its
    end: when it raises (a file that is not JSON, an entry without a
    command) the world is what it was, nothing written. *)
Theorem create_compile_commands_failure_writes_nothing `{Externals}
        (w : World) (e : exn) :
  fst (create_compile_commands w) = inl e ->
  snd (create_compile_commands w) = w.
Proof.
  rewrite create_compile_commands_run.
  destruct (fst (merged_commands w)) as [e'|new_contents]; [reflexivity|].
  destruct (String.eqb (database w) new_contents); discriminate.
Qed.

Lemma create_compile_commands_failure_writes_nothing_witness :
  snd (@create_compile_commands sample world_two_modules) = world_two_modules.
Proof.
  apply (@create_compile_commands_failure_writes_nothing sample world_two_modules
           JSONDecodeError).
  vm_compute. reflexivity.
Defined.

(** X16. [create_compile_commands] touches one file: every other file keeps
    its contents, and the links, [args] and the environment stay as they
    were, whether it returns or raises. *)
Theorem create_compile_commands_touches_only_database `{Externals}
        (w : World) (p : string) :
  p <> "compile_commands.json" ->
  Dict.get p (files (fs (snd (create_compile_commands w)))) = Dict.get p (files (fs w))
  /\ links (fs (snd (create_compile_commands w))) = links (fs w)
  /\ args (snd (create_compile_commands w)) = args w
  /\ environ (snd (create_compile_commands w)) = environ w.
Proof.
  intros Hp. rewrite create_compile_commands_run.
  destruct (fst (merged_commands w)) as [e'|new_contents]; [auto|].
  destruct (String.eqb (database w) new_contents); [auto|].
  cbn [snd written emit set_fs fs files links args environ].
  split; [|auto]. now apply DictFacts.get_set_ne.
Qed.

Lemma create_compile_commands_touches_only_database_witness :
  Dict.get "build/temp/compile_commands.json"
           (files (fs (snd (@create_compile_commands sample world_no_cached_args))))
  = Some (sample_dumps module_commands).
Proof.
  exact (proj1 (@create_compile_commands_touches_only_database sample
                  world_no_cached_args "build/temp/compile_commands.json"
                  ltac:(discriminate))).
Defined.

End MergerMore.

Module MergeOrder.
Import PyStr Vocabulary Merger.

Lemma load_all_app `{Externals} (c1 c2 : list string) (w : World) (e1 e2 : list pyval) :
  fst (load_all c1 w) = inr e1 ->
  fst (load_all c2 w) = inr e2 ->
  fst (load_all (c1 ++ c2) w) = inr (e1 ++ e2).
Proof.
  intros H1 H2. revert e1 H1.
  induction c1 as [|f rest IH]; intros e1 H1; simpl in *.
  - injection H1 as <-. exact H2.
  - unfold bind in *. rewrite ArgumentCache.load_run in *.
    destruct (Dict.get f (files (fs w))) as [text|]; [|discriminate].
    destruct (json_loads (universal_newlines text)) as [v|]; [|discriminate].
    unfold lift in *. destruct (py_iter v) as [e|entries]; [discriminate|].
    pose proof (load_all_run rest w) as Hw1.
    pose proof (load_all_run (rest ++ c2) w) as Hw2.
    destruct (load_all rest w) as [[e|more] w3]; [discriminate|].
    simpl in H1. injection H1 as <-. specialize (IH more eq_refl).
    destruct (load_all (rest ++ c2) w) as [[e|m2] w4]; [discriminate|].
    simpl in IH. injection IH as ->. simpl. now rewrite app_assoc.
Qed.

Lemma fix_commands_app (l1 l2 f1 f2 : list pyval) :
  fix_commands l1 = inr f1 -> fix_commands l2 = inr f2 ->
  fix_commands (l1 ++ l2) = inr (f1 ++ f2).
Proof.
  intros H1 H2. revert f1 H1. induction l1 as [|c rest IH]; intros f1; simpl.
  - intros [= <-]. exact H2.
  - destruct (fix_command c) as [e|c']; [discriminate|].
    destruct (fix_commands rest) as [e|rest']; [discriminate|].
    intros [= <-]. now rewrite (IH rest' eq_refl).
Qed.

(** X17. The merge keeps the discovery order and drops nothing: when the
    files [c1] and the files [c2] load and normalize on their own, the files
    [c1 ++ c2] load to the entries of [c1] followed by those of [c2], and
    normalize to the normalized entries of [c1] followed by those of [c2]. *)
Theorem merge_is_concatenation `{Externals} (c1 c2 : list string) (w : World)
        (e1 e2 f1 f2 : list pyval) :
  fst (load_all c1 w) = inr e1 -> fix_commands e1 = inr f1 ->
  fst (load_all c2 w) = inr e2 -> fix_commands e2 = inr f2 ->
  fst (load_all (c1 ++ c2) w) = inr (e1 ++ e2)
  /\ fix_commands (e1 ++ e2) = inr (f1 ++ f2)
  /\ List.length (f1 ++ f2) = (List.length e1 + List.length e2)%nat.
Proof.
  intros Hl1 Hf1 Hl2 Hf2.
  split; [now apply load_all_app|]. split; [now apply fix_commands_app|].
  rewrite List.length_app.
  now rewrite (MergerMore.fix_commands_length _ _ Hf1),
              (MergerMore.fix_commands_length _ _ Hf2).
Qed.

Lemma merge_is_concatenation_witness :
  fst (@load_all sample
         (["build/a/compile_commands.json"] ++ ["build/b/compile_commands.json"])
         world_two_modules)
  = inr ([PDict (entry "gcc -c a.cpp"); PDict (entry "clang -c a.c")] ++ []).
Proof.
  exact (proj1 (@merge_is_concatenation sample
                  ["build/a/compile_commands.json"] ["build/b/compile_commands.json"]
                  world_two_modules
                  [PDict (entry "gcc -c a.cpp"); PDict (entry "clang -c a.c")] []
                  [PDict (entry "g++ -c a.cpp"); PDict (entry "clang -c a.c")] []
                  ltac:(vm_compute; reflexivity) eq_refl
                  ltac:(vm_compute; reflexivity) eq_refl)).
Defined.

End MergeOrder.

(** ** More on the environment overrides *)

Module EnvironmentOverridesMore.
Import PyStr Vocabulary EnvironmentOverrides.

(** X18. Applying the environment overrides a second time changes nothing. *)
Theorem environment_overrides_idempotent (w : World) :
  environment_overrides (snd (environment_overrides w)) = environment_overrides w.
Proof.
  rewrite (environment_overrides_run w). cbn [snd].
  rewrite environment_overrides_run. cbn [environ args set_args].
  f_equal. unfold set_args. cbn [environ args fs log]. f_equal.
  destruct (String.eqb _ "true"); destruct (environ w !! "CMAKE_ARGS"); cbn zeta;
    try reflexivity;
    apply map_eq; intros i; rewrite !lookup_insert;
    repeat case_decide; congruence.
Qed.

(** X19. The overrides write to [args.headless] and [args.cmake_args] and to
    nothing else: every other attribute, [force_cmake] among them, the
    environment, the files and the log are as before. *)
Theorem environment_overrides_touches_two_keys (w : World) (k : string) :
  k <> "headless" -> k <> "cmake_args" ->
  args (snd (environment_overrides w)) !! k = args w !! k
  /\ environ (snd (environment_overrides w)) = environ w
  /\ fs (snd (environment_overrides w)) = fs w
  /\ log (snd (environment_overrides w)) = log w.
Proof.
  intros Hh Hc. rewrite environment_overrides_run. cbn [snd set_args args environ fs log].
  split; [|auto].
  destruct (String.eqb _ "true"); destruct (environ w !! "CMAKE_ARGS"); cbn zeta;
    repeat (rewrite lookup_insert_ne by congruence); reflexivity.
Qed.

Lemma environment_overrides_touches_two_keys_witness :
  args (snd (environment_overrides world_env_set)) !! "force_cmake"
  = args world_env_set !! "force_cmake".
Proof.
  exact (proj1 (environment_overrides_touches_two_keys world_env_set "force_cmake"
                  ltac:(discriminate) ltac:(discriminate))).
Defined.

End EnvironmentOverridesMore.

(** ** The command line and the detection of pip *)

Module Invocation.
Import PyStr Vocabulary.

(** X20. The split of the command line loses nothing and hides everything
    from the first [--] on from the parser: the two parts concatenate to
    [sys.argv], the parseable part has no [--], and the unparseable part is
    empty when [sys.argv] has no [--] and starts with [--] otherwise. *)
Theorem split_argv_partitions (argv : list string) :
  fst (split_argv argv) ++ snd (split_argv argv) = argv
  /\ ~ In "--" (fst (split_argv argv))
  /\ (~ In "--" argv -> snd (split_argv argv) = [])
  /\ (In "--" argv -> exists rest, snd (split_argv argv) = "--" :: rest).
Proof.
  induction argv as [|arg rest IH]; simpl.
  - repeat split; auto. intros [].
  - destruct (String.eqb_spec arg "--") as [->|Hne]; simpl.
    + repeat split; auto.
      * intros Hno. exfalso. apply Hno. now left.
      * intros _. eauto.
    + destruct (split_argv rest) as [p u]. simpl in *.
      destruct IH as (Happ & Hno & Hnone & Hsome).
      repeat split.
      * now rewrite Happ.
      * intros [Heq|Hin]; [congruence | contradiction].
      * intros Hno'. apply Hnone. intros Hin. apply Hno'. now right.
      * intros [Heq|Hin]; [congruence | now apply Hsome].
Qed.

Lemma after_last_no_sep (c : ascii) (s : string) :
  contains c s = false -> after_last c s = s.
Proof.
  destruct s as [|a s]; [reflexivity|]. intros Hs.
  cbn [after_last]. now rewrite Hs.
Qed.

Lemma contains_app_sep (c : ascii) (d n : string) :
  contains c (d +:+ String c n) = true.
Proof.
  induction d as [|a d IH]; simpl.
  - now rewrite Ascii.eqb_refl.
  - destruct (Ascii.eqb a c); [reflexivity | exact IH].
Qed.

Lemma basename_of_join (d n : string) :
  contains osp.SEP n = false -> osp.basename (d +:+ String osp.SEP n) = n.
Proof.
  intros Hn. unfold osp.basename.
  induction d as [|a d IH].
  - change (EmptyString +:+ String osp.SEP n) with (String osp.SEP n).
    cbn [after_last].
    rewrite (contains_app_sep osp.SEP EmptyString n
             : contains osp.SEP (String osp.SEP n) = true).
    now apply after_last_no_sep.
  - change (String a d +:+ String osp.SEP n) with (String a (d +:+ String osp.SEP n)).
    cbn [after_last].
    rewrite (contains_app_sep osp.SEP (String a d) n
             : contains osp.SEP (String a (d +:+ String osp.SEP n)) = true).
    exact IH.
Qed.

(** X21. [is_pip] looks at the last component of the path in the variable
    [_] and at nothing else: it answers whether that component starts with
    pip, so a directory called pip further up does not count. *)
Theorem is_pip_looks_at_basename (w : World) (dir leaf : string) :
  environ w !! "_" = Some (dir +:+ String "/"%char leaf) ->
  contains "/"%char leaf = false ->
  is_pip w = (inr (startswith "pip" leaf), w).
Proof.
  intros Henv Hleaf. unfold is_pip, gets. rewrite Henv. cbn [default id].
  pose proof (basename_of_join dir leaf Hleaf) as Hbase.
  unfold osp.SEP in Hbase. now rewrite Hbase.
Qed.

Lemma is_pip_looks_at_basename_witness :
  is_pip world_python_under_pip_dir = (inr false, world_python_under_pip_dir).
Proof.
  exact (is_pip_looks_at_basename world_python_under_pip_dir
           "/opt/pip/bin" "python3" eq_refl eq_refl).
Defined.

(** Without the variable [_] the run does not count as driven by pip. *)
Example is_pip_default :
  fst (is_pip world_unconfigured) = inr false.
Proof. reflexivity. Qed.

End Invocation.

(** ** [CMakeBuild.run] *)

Module RunMore.
Import PyStr Vocabulary.

(** X22. When CMake cannot be started, [run] raises [RuntimeError] for
    every list of extensions and builds none of them: all the script has
    done is to try to start [cmake --version]. *)
Theorem run_without_cmake `{Externals} (self : CMakeBuild)
        (extensions : list CMakeExtension) (w : World) :
  subprocess ["cmake"; "--version"] (environ w) (fs w) = NotStarted ->
  run self extensions w
  = (inl RuntimeError, emit (ESpawn ["cmake"; "--version"]) w).
Proof.
  intros Hcmake. unfold run, bind, gets, check_call. cbn [fst snd].
  cbn [emit fs]. now rewrite Hcmake.
Qed.

Lemma run_without_cmake_witness :
  @run sample_no_cmake self0 [ext0] world_no_cached_args
  = (inl RuntimeError, emit (ESpawn ["cmake"; "--version"]) world_no_cached_args).
Proof.
  exact (@run_without_cmake sample_no_cmake self0 [ext0] world_no_cached_args eq_refl).
Defined.

End RunMore.
